(** * The mbox-host driver (drivers/misc/mbox-host.c)

    A shallow embedding of the ASPEED mailbox host driver: the register
    access helpers, the character-device file operations (read, write,
    ioctl, poll), the two notification sources (interrupt handler and poll
    timer) and the attach path (config_irq, probe).

    Every operation is a function on a [world]: the register window behind
    [base], the user memory reachable through [__put_user]/[__get_user], the
    fields of [struct mbox_host], and a trace of the observable actions in
    program order. *)

From Stdlib Require Import ZArith List Bool Lia.
From stdpp Require Import base gmap list.
Import ListNotations.

Local Open Scope Z_scope.

(** ** Constants of the driver *)

Definition MBOX_NUM_REGS : Z := 16.
Definition MBOX_NUM_DATA_REGS : nat := 14.

Definition MBOX_DATA_0 : Z := 0x00.
Definition MBOX_STATUS_0 : Z := 0x40.
Definition MBOX_STATUS_1 : Z := 0x44.
Definition MBOX_BMC_CTRL : Z := 0x48.
Definition MBOX_CTRL_RECV : Z := 0x80.
Definition MBOX_CTRL_MASK : Z := 0x02.
Definition MBOX_CTRL_SEND : Z := 0x01.
Definition MBOX_HOST_CTRL : Z := 0x4c.
Definition MBOX_INTERRUPT_0 : Z := 0x50.
Definition MBOX_INTERRUPT_1 : Z := 0x54.

(** errno values and kernel constants the driver returns *)
Definition ENXIO : Z := 6.
Definition ENOMEM : Z := 12.
Definition EFAULT : Z := 14.
Definition ENODEV : Z := 19.
Definition EINVAL : Z := 22.
Definition ERESTARTSYS : Z := 512.
Definition POLLIN : Z := 0x0001.

Inductive irqreturn_t := IRQ_NONE | IRQ_HANDLED.

(** ** Observable actions *)

Inductive event :=
  | EvIn (reg val : Z)        (* ioread8(base + reg) returned val *)
  | EvOut (val reg : Z)       (* iowrite8(val, base + reg) *)
  | EvWake                    (* wake_up(&queue) *)
  | EvPollWait                (* poll_wait(file, &queue, wait) *)
  | EvPut (addr val : Z)      (* a __put_user that stored val at addr *)
  | EvGet (addr val : Z)      (* a __get_user that fetched val from addr *)
  | EvAddTimer (expiry : Z).  (* add_timer(&poll_timer) *)

(** ** The world the driver runs in *)

Record world := mkWorld {
  regs : gmap Z Z;        (* register window: offset from base -> byte *)
  umem : gmap Z Z;        (* user bytes that can be accessed without fault *)
  addr_limit : Z;         (* end of the user address range *)
  sigpend : bool;         (* a signal is pending for the calling task *)
  irq : Z;                (* mbox_host->irq *)
  irq_bound : bool;       (* mbox_host_irq is registered on the line *)
  timer_armed : bool;     (* poll_timer is pending *)
  expires : Z;            (* poll_timer.expires *)
  jiffies : Z;
  trace : list event
}.

Definition set_regs (r : gmap Z Z) (w : world) : world :=
  mkWorld r (umem w) (addr_limit w) (sigpend w) (irq w) (irq_bound w)
          (timer_armed w) (expires w) (jiffies w) (trace w).

Definition set_umem (m : gmap Z Z) (w : world) : world :=
  mkWorld (regs w) m (addr_limit w) (sigpend w) (irq w) (irq_bound w)
          (timer_armed w) (expires w) (jiffies w) (trace w).

Definition set_sigpend (b : bool) (w : world) : world :=
  mkWorld (regs w) (umem w) (addr_limit w) b (irq w) (irq_bound w)
          (timer_armed w) (expires w) (jiffies w) (trace w).

Definition set_irq (n : Z) (bound : bool) (w : world) : world :=
  mkWorld (regs w) (umem w) (addr_limit w) (sigpend w) n bound
          (timer_armed w) (expires w) (jiffies w) (trace w).

Definition set_timer (armed : bool) (e : Z) (w : world) : world :=
  mkWorld (regs w) (umem w) (addr_limit w) (sigpend w) (irq w) (irq_bound w)
          armed e (jiffies w) (trace w).

Definition log (e : event) (w : world) : world :=
  mkWorld (regs w) (umem w) (addr_limit w) (sigpend w) (irq w) (irq_bound w)
          (timer_armed w) (expires w) (jiffies w) (trace w ++ [e]).

(** ** The hardware behind the register window *)

Definition reg_get (r : gmap Z Z) (off : Z) : Z := default 0 (r !! off).

(** Bit 7 of a byte, as [v & MBOX_CTRL_RECV] tests it. *)
Definition recv_set (v : Z) : bool := negb (Z.land v MBOX_CTRL_RECV =? 0).

(** Modelled from the spec: the behaviour of the control register under a
    write, which is hardware and not part of the driver.  RECV is
    write-one-to-clear; the other bits (MASK and SEND among them) take the
    value written, so that a write of RECV alone clears and unmasks in one
    step. *)
Definition ctrl_after_write (old v : Z) : Z :=
  Z.lor (Z.land v 0x7f) (if Z.testbit v 7 then 0 else Z.land old MBOX_CTRL_RECV).

(** Modelled from the spec: the register window.  The control register
    follows [ctrl_after_write], the two status registers are
    write-one-to-clear as the driver's comment says, every other register
    (the data registers among them) keeps the byte written. *)
Definition hw_write (r : gmap Z Z) (off v : Z) : gmap Z Z :=
  if decide (off = MBOX_BMC_CTRL) then <[off := ctrl_after_write (reg_get r off) v]> r
  else if decide (off = MBOX_STATUS_0 \/ off = MBOX_STATUS_1)
       then <[off := Z.ldiff (reg_get r off) v]> r
       else <[off := v]> r.

(** Modelled from the spec: the peer asserting RECV, which leaves every
    other bit and every other register as it is. *)
Definition peer_assert (r : gmap Z Z) : gmap Z Z :=
  <[MBOX_BMC_CTRL := Z.lor (reg_get r MBOX_BMC_CTRL) MBOX_CTRL_RECV]> r.

(** ** Register access layer *)

Definition ioread8 (off : Z) (w : world) : Z * world :=
  let v := reg_get (regs w) off in (v, log (EvIn off v) w).

Definition iowrite8 (v off : Z) (w : world) : world :=
  log (EvOut v off) (set_regs (hw_write (regs w) off v) w).

Definition mbox_inb (reg : Z) (w : world) : Z * world := ioread8 reg w.

(** [data] is a [u8]: whatever is passed is truncated to a byte. *)
Definition mbox_outb (data reg : Z) (w : world) : world :=
  iowrite8 (data mod 256) reg w.

(** ** User memory access *)

(** Modelled from the spec: [access_ok] only checks that the range lies in
    the user address range; it does not touch the bytes. *)
Definition access_ok (addr size : Z) (w : world) : bool :=
  (0 <=? addr) && (addr + size <=? addr_limit w).

(** Modelled from the spec: [__put_user] stores one byte, or faults. *)
Definition __put_user (x ptr : Z) (w : world) : Z * world :=
  match umem w !! ptr with
  | Some _ => (0, log (EvPut ptr x) (set_umem (<[ptr := x]> (umem w)) w))
  | None => (- EFAULT, w)
  end.

(** Modelled from the spec: [__get_user] fetches one byte, or faults. *)
Definition __get_user (ptr : Z) (w : world) : Z * Z * world :=
  match umem w !! ptr with
  | Some c => (0, c, log (EvGet ptr c) w)
  | None => (- EFAULT, 0, w)
  end.

(** ** Notification sources *)

(** Modelled from the spec: [wake_up], [add_timer] and [poll_wait] are kernel
    services; here they leave their mark in the trace, and [add_timer]
    makes the timer pending. *)
Definition wake_up (w : world) : world := log EvWake w.

Definition add_timer (w : world) : world :=
  log (EvAddTimer (expires w)) (set_timer true (expires w) w).

Definition mbox_host_irq (w : world) : irqreturn_t * world :=
  let '(v, w1) := mbox_inb MBOX_BMC_CTRL w in
  if negb (recv_set v) then (IRQ_NONE, w1)
  else
    let w2 := mbox_outb MBOX_CTRL_MASK MBOX_BMC_CTRL w1 in
    let w3 := wake_up w2 in
    (IRQ_HANDLED, w3).

(** ** What the environment can do while a reader sleeps *)

Inductive env_event :=
  | EnvPeerAssert   (* the peer raises RECV *)
  | EnvIrq          (* the interrupt line fires *)
  | EnvTimer        (* the poll timer expires *)
  | EnvSignal.      (* a signal is sent to the reading task *)

(** A file operation either returns a value or is still asleep when the
    environment has nothing more to offer. *)
Inductive outcome :=
  | Ret (rc : Z)
  | Blocked.

(** The platform as the attach path meets it. *)
Inductive irq_request :=
  | IrqGranted
  | IrqRefused (errno : positive).

Record platform := mkPlatform {
  has_of_node : bool;        (* pdev && pdev->dev.of_node *)
  kzalloc_ok : bool;         (* devm_kzalloc returned memory *)
  has_mem_resource : bool;   (* platform_get_resource found the window *)
  ioremap_ok : bool;         (* devm_ioremap_resource mapped it; false is the
                                NULL that probe tests for *)
  misc_register_rc : Z;      (* what misc_register returns *)
  of_irq : Z;                (* irq_of_parse_and_map: 0 when there is none *)
  request : irq_request      (* what devm_request_irq answers *)
}.

(** * The lpc-ctrl driver (drivers/misc/lpc-ctrl.c)

    The driver that programs the LPC-to-AHB window: two 32-bit registers,
    the reserved memory region it found at attach, and the file operations
    (mmap, read, write, ioctl). *)

Definition LPC_HICR7 : Z := 0x88.
Definition LPC_HICR8 : Z := 0x8c.

Definition EAGAIN : Z := 11.
Definition ENOSYS : Z := 38.

(** A value of an unsigned type [bits] wide. *)
Definition wrap (bits x : Z) : Z := x mod 2 ^ bits.
Definition u32 (x : Z) : Z := wrap 32 x.

(** Declared in <linux/lpc-ctrl.h>, outside the sources: the argument of the
    MAP operation.  Its fields are 32-bit unsigned (the driver prints them
    with %08x); [map_size] is the field [size]. *)
Record lpc_mapping := mkMapping {
  hostaddr : Z;
  map_size : Z
}.

(** The operation codes of <linux/lpc-ctrl.h>, told apart as the [switch]
    tells them apart. *)
Inductive lpc_cmd :=
  | LPC_CTRL_IOCTL_SIZE
  | LPC_CTRL_IOCTL_MAP
  | LPC_CTRL_IOCTL_UNMAP
  | LPC_CTRL_IOCTL_OTHER (cmd : Z).

Inductive lpc_event :=
  | LpcOut32 (val reg : Z)             (* iowrite32(val, ctrl + reg) *)
  | LpcRemap (start pfn vsize : Z).    (* remap_pfn_range(vma, start, pfn, vsize, prot) *)

Record lpc_world := mkLpc {
  lpc_regs : gmap Z Z;              (* registers behind ctrl: offset -> u32 *)
  lpc_base : Z;                     (* lpc_ctrl->base *)
  lpc_size : Z;                     (* lpc_ctrl->size *)
  user_maps : gmap Z lpc_mapping;   (* struct lpc_mapping objects readable by address *)
  user_sizes : gmap Z Z;            (* resource_size_t objects writable by address *)
  lpc_addr_limit : Z;               (* end of the user address range *)
  lpc_trace : list lpc_event
}.

Definition lpc_log (e : lpc_event) (w : lpc_world) : lpc_world :=
  mkLpc (lpc_regs w) (lpc_base w) (lpc_size w) (user_maps w) (user_sizes w)
        (lpc_addr_limit w) (lpc_trace w ++ [e]).

(** [iowrite32]: the register keeps the 32-bit value written. *)
Definition iowrite32 (v off : Z) (w : lpc_world) : lpc_world :=
  lpc_log (LpcOut32 (u32 v) off)
    (mkLpc (<[off := u32 v]> (lpc_regs w)) (lpc_base w) (lpc_size w)
           (user_maps w) (user_sizes w) (lpc_addr_limit w) (lpc_trace w)).

Definition lpc_access_ok (addr size : Z) (w : lpc_world) : bool :=
  (0 <=? addr) && (addr + size <=? lpc_addr_limit w).

(** The machine: page size and the widths of [unsigned long] and of
    [phys_addr_t] / [resource_size_t]. *)
Record arch := mkArch {
  PAGE_SHIFT : Z;
  long_bits : Z;
  phys_bits : Z
}.

(** What mmap gets: the area, and whether [remap_pfn_range] will succeed. *)
Record vm_area := mkVma {
  vm_start : Z;
  vm_end : Z;
  vm_pgoff : Z;
  remap_ok : bool
}.

Definition lpc_ctrl_mmap (a : arch) (vma : vm_area) (w : lpc_world) : Z * lpc_world :=
  let vsize := wrap (long_bits a) (vm_end vma - vm_start vma) in
  if wrap (long_bits a) (vm_pgoff vma + vsize)
     >? wrap (phys_bits a) (lpc_base w + lpc_size w)
  then (- EINVAL, w)
  else
    let pfn := wrap (long_bits a) (Z.shiftr (lpc_base w) (PAGE_SHIFT a) + vm_pgoff vma) in
    let w1 := lpc_log (LpcRemap (vm_start vma) pfn vsize) w in
    if remap_ok vma then (0, w1) else (- EAGAIN, w1).

Definition lpc_ctrl_open (w : lpc_world) : Z * lpc_world := (0, w).
Definition lpc_ctrl_release (w : lpc_world) : Z * lpc_world := (0, w).

Definition lpc_ctrl_read (buf count : Z) (w : lpc_world) : Z * lpc_world :=
  if negb (lpc_access_ok buf count w) then (- EFAULT, w) else (- ENOSYS, w).

Definition lpc_ctrl_write (buf count : Z) (w : lpc_world) : Z * lpc_world :=
  if negb (lpc_access_ok buf count w) then (- EFAULT, w) else (- ENOSYS, w).

(** The test on the argument of MAP, operator by operator: [~0xffff] is an
    [int] that the 32-bit field turns into 0xffff0000. *)
Definition lpc_map_rejected (m : lpc_mapping) : bool :=
  (Z.lor (hostaddr m) (u32 (Z.lnot 0xffff)) =? 0)
  || negb (Z.land (hostaddr m) 0xffff =? 0)
  || (Z.lor (map_size m) (u32 (Z.lnot 0xffff)) =? 0)
  || negb (Z.land (map_size m) 0xffff =? 0).

(** What MAP writes to HICR7 and HICR8. *)
Definition hicr7_of (base : Z) (m : lpc_mapping) : Z :=
  Z.lor base (Z.shiftr (hostaddr m) 16).

Definition hicr8_of (m : lpc_mapping) : Z :=
  Z.lor (u32 (Z.lnot (u32 (map_size m - 1))))
        (u32 (Z.shiftr (map_size m) 16 - 1)).

(** [copy_to_user] and [copy_from_user] are taken at the grain of the object
    copied: the whole object, or a fault. *)
Definition lpc_ctrl_ioctl (cmd : lpc_cmd) (param : Z) (w : lpc_world)
  : Z * lpc_world :=
  match cmd with
  | LPC_CTRL_IOCTL_SIZE =>
      match user_sizes w !! param with
      | Some _ =>
          (0, mkLpc (lpc_regs w) (lpc_base w) (lpc_size w) (user_maps w)
                    (<[param := lpc_size w]> (user_sizes w))
                    (lpc_addr_limit w) (lpc_trace w))
      | None => (- EFAULT, w)
      end
  | LPC_CTRL_IOCTL_MAP =>
      match user_maps w !! param with
      | None => (- EFAULT, w)
      | Some m =>
          if lpc_map_rejected m then (- EINVAL, w)
          else
            let w1 := iowrite32 (hicr7_of (lpc_base w) m) LPC_HICR7 w in
            let w2 := iowrite32 (hicr8_of m) LPC_HICR8 w1 in
            (0, w2)
      end
  | LPC_CTRL_IOCTL_UNMAP =>
      let w1 := iowrite32 (Z.lor (Z.shiftl 0x3000 16) 0x0e00) LPC_HICR7 w in
      let w2 := iowrite32 (Z.lor (Z.shiftl (Z.lnot (0x0200 - 1)) 16) (0x0200 - 1))
                          LPC_HICR8 w1 in
      (0, w2)
  | LPC_CTRL_IOCTL_OTHER _ => (- EINVAL, w)
  end.

(** The reserved memory region of the device tree: no "memory-region"
    phandle, one that [of_address_to_resource] cannot resolve, or a
    resource from [start] to [end] inclusive. *)
Inductive reserved_region :=
  | NoRegion
  | UnresolvedRegion
  | Region (res_start res_end : Z).

Record lpc_platform := mkLpcPlatform {
  lpc_has_of_node : bool;
  lpc_kzalloc_ok : bool;
  lpc_has_mem_resource : bool;
  lpc_ioremap_ok : bool;     (* devm_ioremap_resource mapped the registers; false
                                is the NULL that probe tests for *)
  lpc_region : reserved_region;
  lpc_misc_register_rc : Z
}.

(** [resource_size]: end - start + 1, in [resource_size_t]. *)
Definition resource_size (a : arch) (res_start res_end : Z) : Z :=
  wrap (phys_bits a) (res_end - res_start + 1).

Definition lpc_ctrl_probe (a : arch) (pf : lpc_platform) (w : lpc_world)
  : Z * lpc_world :=
  if negb (lpc_has_of_node pf) then (- ENODEV, w)
  else if negb (lpc_kzalloc_ok pf) then (- ENOMEM, w)
  else if negb (lpc_has_mem_resource pf) then (- ENXIO, w)
  else if negb (lpc_ioremap_ok pf) then (- ENOMEM, w)
  else
    match lpc_region pf with
    | NoRegion => (- EINVAL, w)
    | UnresolvedRegion => (- ENOMEM, w)
    | Region res_start res_end =>
        if negb (lpc_misc_register_rc pf =? 0) then (lpc_misc_register_rc pf, w)
        else
          (0, mkLpc (lpc_regs w) res_start (resource_size a res_start res_end)
                    (user_maps w) (user_sizes w) (lpc_addr_limit w) (lpc_trace w))
    end.

Definition lpc_ctrl_remove (w : lpc_world) : Z * lpc_world := (0, w).

(** Values used as concrete inputs below: a 32-bit machine with 4 KiB
    pages, the flash window of the UNMAP operation, and a device attached
    on a 16 MiB region at 0x98000000. *)
Definition arm32 : arch := mkArch 12 32 32.

Definition default_window : lpc_mapping := mkMapping 0x0e000000 0x02000000.

Definition lpc_idle : lpc_world :=
  mkLpc ∅ 0 0 {[ 64 := default_window ]} {[ 128 := 0 ]} 4096 [].

(** A device whose region is the 32 MiB flash window at 0x30000000. *)
Definition lpc_flash : lpc_world :=
  mkLpc ∅ 0x30000000 0x02000000 {[ 64 := default_window ]} {[ 128 := 0 ]} 4096 [].

Definition lpc_pf : lpc_platform :=
  mkLpcPlatform true true true true (Region 0x98000000 0x98ffffff) 0.

Section Driver.

(** Declared outside the driver: the ioctl number of <linux/mbox-host.h>,
    the jiffies conversion (which depends on HZ) and the width of
    [unsigned long]. *)
Variable MBOX_HOST_IOCTL_ATN : Z.
Variable msecs_to_jiffies : Z -> Z.
Variable BITS_PER_LONG : Z.

(** Arithmetic on [unsigned long] wraps. *)
Definition ulong (x : Z) : Z := x mod 2 ^ BITS_PER_LONG.

Definition poll_timer (w : world) : world :=
  let w1 := set_timer (timer_armed w) (ulong (expires w + msecs_to_jiffies 500)) w in
  let w2 := wake_up w1 in
  add_timer w2.

(** Modelled from the spec: one action of the environment (peer, interrupt
    controller, timer wheel, signal delivery), which is not part of the
    driver; the boolean tells whether it wakes the tasks sleeping on
    [queue].  The handler runs only when it is registered,
    the timer callback only when the timer is pending (the kernel takes a
    timer off its list before calling it). *)
Definition env_step (e : env_event) (w : world) : bool * world :=
  match e with
  | EnvPeerAssert => (false, set_regs (peer_assert (regs w)) w)
  | EnvIrq =>
      if irq_bound w then
        match mbox_host_irq w with
        | (IRQ_HANDLED, w1) => (true, w1)
        | (IRQ_NONE, w1) => (false, w1)
        end
      else (false, w)
  | EnvTimer =>
      if timer_armed w
      then (true, poll_timer (set_timer false (expires w) w))
      else (false, w)
  | EnvSignal => (true, set_sigpend true w)
  end.

(** ** Blocking *)

(** The condition [mbox_inb(mbox_host, MBOX_BMC_CTRL) & MBOX_CTRL_RECV]. *)
Definition recv_pending (w : world) : bool * world :=
  let '(v, w1) := mbox_inb MBOX_BMC_CTRL w in (recv_set v, w1).

(** Modelled from the spec: the sleep inside [wait_event_interruptible].
    The task sleeps until something wakes it, then tests the condition
    again; when the condition is false and a signal is pending the wait
    ends with -ERESTARTSYS. *)
Fixpoint sleep_on (script : list env_event) (w : world) : outcome * world :=
  match script with
  | [] => (Blocked, w)
  | e :: rest =>
      let '(woke, w1) := env_step e w in
      if woke then
        let '(c, w2) := recv_pending w1 in
        if c then (Ret 0, w2)
        else if sigpend w2 then (Ret (- ERESTARTSYS), w2)
        else sleep_on rest w2
      else sleep_on rest w1
  end.

(** Modelled from the spec: [wait_event_interruptible(queue, condition)].
    The condition is tested once before anything else and once more on
    entry to the wait loop. *)
Definition wait_event_interruptible (script : list env_event) (w : world)
  : outcome * world :=
  let '(c, w1) := recv_pending w in
  if c then (Ret 0, w1)
  else
    let '(c', w2) := recv_pending w1 in
    if c' then (Ret 0, w2)
    else if sigpend w2 then (Ret (- ERESTARTSYS), w2)
    else sleep_on script w2.

(** ** File operations *)

Definition mbox_host_open (w : world) : Z * world := (0, w).
Definition mbox_host_release (w : world) : Z * world := (0, w).

(** The loop of [mbox_host_read]: [n] iterations are left, [i] is the loop
    counter and [p] the user pointer.  Returns the error (0 for none), the
    pointer and the world. *)
Fixpoint read_loop (n : nat) (i p : Z) (w : world) : Z * Z * world :=
  match n with
  | O => (0, p, w)
  | S n' =>
      let '(v, w1) := mbox_inb (MBOX_DATA_0 + i * 4) w in
      let '(rc, w2) := __put_user v p w1 in
      if negb (rc =? 0) then (- EFAULT, p + 1, w2)
      else read_loop n' (i + 1) (p + 1) w2
  end.

(** [WARN_ON( *ppos)] only prints a warning: [ppos] is left out. *)
Definition mbox_host_read (buf count : Z) (script : list env_event) (w : world)
  : outcome * world :=
  if negb (access_ok buf count w) then (Ret (- EFAULT), w)
  else
    match wait_event_interruptible script w with
    | (Blocked, w1) => (Blocked, w1)
    | (Ret rc, w1) =>
        if negb (rc =? 0) then (Ret (- ERESTARTSYS), w1)
        else
          match read_loop MBOX_NUM_DATA_REGS 0 buf w1 with
          | (err, p, w2) =>
              if negb (err =? 0) then (Ret err, w2)
              else
                (* MBOX_CTRL_RECV bit is W1C, this also unmasks in 1 step *)
                let w3 := mbox_outb MBOX_CTRL_RECV MBOX_BMC_CTRL w2 in
                (Ret (p - buf), w3)
          end
    end.

Fixpoint write_loop (n : nat) (i p : Z) (w : world) : Z * Z * world :=
  match n with
  | O => (0, p, w)
  | S n' =>
      let '(rc, c, w1) := __get_user p w in
      if negb (rc =? 0) then (- EFAULT, p, w1)
      else
        let w2 := mbox_outb c (MBOX_DATA_0 + i * 4) w1 in
        write_loop n' (i + 1) (p + 1) w2
  end.

Definition mbox_host_write (buf count : Z) (w : world) : Z * world :=
  if negb (access_ok buf count w) then (- EFAULT, w)
  else
    match write_loop MBOX_NUM_DATA_REGS 0 buf w with
    | (err, p, w1) =>
        if negb (err =? 0) then (err, w1)
        else
          let w2 := mbox_outb MBOX_CTRL_SEND MBOX_BMC_CTRL w1 in
          (p - buf, w2)
    end.

Definition mbox_host_ioctl (cmd param : Z) (w : world) : Z * world :=
  if cmd =? MBOX_HOST_IOCTL_ATN
  then (0, mbox_outb param (MBOX_DATA_0 + 15) w)
  else (- EINVAL, w).

Definition poll_wait (w : world) : world := log EvPollWait w.

Definition mbox_host_poll (w : world) : Z * world :=
  let mask := 0 in
  let w1 := poll_wait w in
  let '(v, w2) := mbox_inb MBOX_BMC_CTRL w1 in
  let mask := if recv_set v then Z.lor mask POLLIN else mask in
  (mask, w2).

(** ** Attach *)

Definition mbox_host_config_irq (pf : platform) (w : world) : Z * world :=
  let w1 := set_irq (of_irq pf) (irq_bound w) w in
  if irq w1 =? 0 then (- ENODEV, w1)
  else
    match request pf with
    | IrqRefused e => (- Z.pos e, set_irq 0 false w1)
    | IrqGranted =>
        let w2 := set_irq (irq w1) true w1 in
        (* Disable all register based interrupts *)
        let w3 := mbox_outb 0x00 MBOX_INTERRUPT_0 w2 in
        let w4 := mbox_outb 0x00 MBOX_INTERRUPT_1 w3 in
        (* W1C *)
        let w5 := mbox_outb 0xff MBOX_STATUS_0 w4 in
        let w6 := mbox_outb 0xff MBOX_STATUS_1 w5 in
        let w7 := mbox_outb MBOX_CTRL_RECV MBOX_BMC_CTRL w6 in
        (0, w7)
    end.

(** [devm_kzalloc] hands out zeroed memory: a fresh instance has no
    interrupt number, no handler and no timer. *)
Definition kzalloc (w : world) : world :=
  set_timer false 0 (set_irq 0 false w).

Definition mbox_host_probe (pf : platform) (w : world) : Z * world :=
  if negb (has_of_node pf) then (- ENODEV, w)
  else if negb (kzalloc_ok pf) then (- ENOMEM, w)
  else
    let w0 := kzalloc w in
    if negb (has_mem_resource pf) then (- ENXIO, w)
    else if negb (ioremap_ok pf) then (- ENOMEM, w)
    else if negb (misc_register_rc pf =? 0) then (misc_register_rc pf, w)
    else
      let '(_, w1) := mbox_host_config_irq pf w0 in
      if negb (irq w1 =? 0) then (0, w1)
      else
        let w2 := set_timer (timer_armed w1)
                    (ulong (jiffies w1 + msecs_to_jiffies 10)) w1 in
        (0, add_timer w2).

(** ** The life of an attached instance *)

Inductive op :=
  | OpRead (buf count : Z) (script : list env_event)
  | OpWrite (buf count : Z)
  | OpIoctl (cmd param : Z)
  | OpPoll
  | OpEnv (e : env_event).

Definition step (w : world) (o : op) : world :=
  match o with
  | OpRead buf count script => snd (mbox_host_read buf count script w)
  | OpWrite buf count => snd (mbox_host_write buf count w)
  | OpIoctl cmd param => snd (mbox_host_ioctl cmd param w)
  | OpPoll => snd (mbox_host_poll w)
  | OpEnv e => snd (env_step e w)
  end.

Definition run (ops : list op) (w : world) : world := fold_left step ops w.

(** Everything the driver is made of, the attach path included. *)
Inductive routine :=
  | RunOp (o : op)
  | ConfigIrq (pf : platform)
  | Probe (pf : platform).

Definition returned (p : Z * world) : outcome * world := (Ret (fst p), snd p).

Definition exec (r : routine) (w : world) : outcome * world :=
  match r with
  | RunOp (OpRead buf count script) => mbox_host_read buf count script w
  | RunOp (OpWrite buf count) => returned (mbox_host_write buf count w)
  | RunOp (OpIoctl cmd param) => returned (mbox_host_ioctl cmd param w)
  | RunOp OpPoll => returned (mbox_host_poll w)
  | RunOp (OpEnv e) => (Ret 0, snd (env_step e w))
  | ConfigIrq pf => returned (mbox_host_config_irq pf w)
  | Probe pf => returned (mbox_host_probe pf w)
  end.

Definition is_read (r : routine) : bool :=
  match r with
  | RunOp (OpRead _ _ _) => true
  | _ => false
  end.

(** ** Vocabulary of the statements *)

(** Offset of data register [i]: the stride of the loops in read and write. *)
Definition slot_off (i : Z) : Z := MBOX_DATA_0 + i * 4.

(** Slot numbers i, i+1, ..., i+n-1, and the slots of a frame from 0. *)
Definition slots_from (i n : nat) : list Z := map Z.of_nat (seq i n).
Definition slots (n : nat) : list Z := slots_from 0 n.

(** The status register reads with RECV set. *)
Definition recv_ready (w : world) : bool :=
  recv_set (reg_get (regs w) MBOX_BMC_CTRL).

(** A register write that clears RECV: a one in bit 7 of the control
    register. *)
Definition clears_recv (e : event) : bool :=
  match e with
  | EvOut v reg => (reg =? MBOX_BMC_CTRL) && recv_set v
  | _ => false
  end.

Definition is_out (e : event) : bool :=
  match e with EvOut _ _ => true | _ => false end.

Definition is_put (e : event) : bool :=
  match e with EvPut _ _ => true | _ => false end.

(** The registers a run of events writes, and the registers it reads. *)
Definition out_regs (evs : list event) : list Z :=
  flat_map (fun e => match e with EvOut _ reg => [reg] | _ => [] end) evs.

Definition in_regs (evs : list event) : list Z :=
  flat_map (fun e => match e with EvIn reg _ => [reg] | _ => [] end) evs.

(** The user addresses a run of events stores to. *)
Definition put_addrs (evs : list event) : list Z :=
  flat_map (fun e => match e with EvPut a _ => [a] | _ => [] end) evs.

(** The events [w'] has on top of [w]. *)
Definition new_events (w w' : world) : list event :=
  drop (length (trace w)) (trace w').

(** [w'] has the trace of [w] and, after it, events that all satisfy [P]. *)
Definition grows (P : event -> Prop) (w w' : world) : Prop :=
  exists evs, trace w' = trace w ++ evs /\ Forall P evs.

(** [w] with other registers and user memory, and more events. *)
Definition patch (r m : gmap Z Z) (evs : list event) (w : world) : world :=
  mkWorld r m (addr_limit w) (sigpend w) (irq w) (irq_bound w)
          (timer_armed w) (expires w) (jiffies w) (trace w ++ evs).

(** [n] bytes can be accessed at [buf]. *)
Definition buffer_ok (buf : Z) (n : nat) (w : world) : Prop :=
  forall j : nat, (j < n)%nat -> is_Some (umem w !! (buf + Z.of_nat j)).

(** What draining the slots [js] into [buf] looks like, slot after slot,
    and the user memory it leaves. *)
Definition drain_events (r : gmap Z Z) (buf : Z) (js : list Z) : list event :=
  flat_map (fun j => [EvIn (slot_off j) (reg_get r (slot_off j));
                      EvPut (buf + j) (reg_get r (slot_off j))]) js.

Definition drain_mem (r : gmap Z Z) (buf : Z) (js : list Z) (m : gmap Z Z)
  : gmap Z Z :=
  fold_left (fun m j => <[buf + j := reg_get r (slot_off j)]> m) js m.

(** What filling the slots [js] from [buf] looks like, slot after slot,
    and the registers it leaves. *)
Definition user_byte (m : gmap Z Z) (a : Z) : Z := default 0 (m !! a).

Definition fill_events (m : gmap Z Z) (buf : Z) (js : list Z) : list event :=
  flat_map (fun j => [EvGet (buf + j) (user_byte m (buf + j));
                      EvOut (user_byte m (buf + j) mod 256) (slot_off j)]) js.

Definition fill_regs (m : gmap Z Z) (buf : Z) (js : list Z) (r : gmap Z Z)
  : gmap Z Z :=
  fold_left (fun r j => hw_write r (slot_off j) (user_byte m (buf + j) mod 256)) js r.

(** What may happen while a reader waits: nothing is copied to the user and
    no write clears RECV. *)
Definition wait_event_ok (e : event) : Prop :=
  is_put e = false /\ clears_recv e = false.

(** What happens in a wait that ends on a signal: no register is written
    and nothing is copied. *)
Definition silent (e : event) : Prop :=
  is_out e = false /\ is_put e = false.

(** A read of the status register that found RECV set. *)
Definition saw_recv (e : event) : bool :=
  match e with
  | EvIn reg v => (reg =? MBOX_BMC_CTRL) && recv_set v
  | _ => false
  end.

(** How a wait can return: 0 right after a read of the status register
    that found RECV set, or -ERESTARTSYS right after one that did not, with
    a signal pending. *)
Definition ended_well (rc : Z) (w1 : world) : Prop :=
  (rc = 0 /\ recv_ready w1 = true /\
   exists pre v, trace w1 = pre ++ [EvIn MBOX_BMC_CTRL v] /\ recv_set v = true)
  \/ (rc = - ERESTARTSYS /\ recv_ready w1 = false /\ sigpend w1 = true).

(** What the environment and the waiting reader leave alone. *)
Definition kept (w w' : world) : Prop :=
  umem w' = umem w /\ addr_limit w' = addr_limit w /\
  irq w' = irq w /\ irq_bound w' = irq_bound w /\
  timer_armed w' = timer_armed w /\ jiffies w' = jiffies w /\
  grows wait_event_ok w w' /\
  (recv_ready w = true -> recv_ready w' = true).

(** Exactly one notification source: the timer is pending if and only if
    no handler is bound, and a handler is bound if and only if [irq] is
    not zero. *)
Definition one_source (w : world) : Prop :=
  timer_armed w = negb (irq_bound w) /\ irq_bound w = negb (irq w =? 0).

(** [k] expirations of the poll timer in a row. *)
Definition ticks (k : nat) (w : world) : world :=
  Nat.iter k (fun w => snd (env_step EnvTimer w)) w.

(** ** Detach *)

(** [misc_deregister], [devm_iounmap] and [devm_kfree] give back what probe
    took and write no register; [del_timer_sync] leaves the timer not
    pending. *)
Definition mbox_host_remove (w : world) : Z * world :=
  let w1 := if irq w =? 0 then set_timer false (expires w) w else w in
  (0, w1).

(** The notification event of an instance: the interrupt when a handler is
    bound, the timer expiry otherwise. *)
Definition source_event (w : world) : env_event :=
  if irq_bound w then EnvIrq else EnvTimer.

Definition is_delivery (e : env_event) : bool :=
  match e with EnvPeerAssert => true | _ => false end.

Definition is_signal (e : env_event) : bool :=
  match e with EnvSignal => true | _ => false end.

(** Worlds used as concrete inputs below. *)
Definition bytes_at (base : Z) (l : list Z) : gmap Z Z :=
  list_to_map (imap (fun j b => (base + Z.of_nat j, b)) l).

Definition sample_frame : list Z := [1; 2; 3; 4; 5; 6; 7; 8; 9; 10; 11; 12; 13; 14].

Definition w_idle : world :=
  mkWorld ∅ (bytes_at 100 sample_frame ∪ bytes_at 200 (replicate 14 0))
          4096 false 0 false false 0 1000 [].

Definition w_ready : world := set_regs (peer_assert (regs w_idle)) w_idle.

(** RECV set, but only five bytes can be written at 200. *)
Definition w_short : world :=
  mkWorld (peer_assert ∅) (bytes_at 200 (replicate 5 0))
          4096 false 0 false false 0 1000 [].

(** An instance with its handler bound on line 5. *)
Definition w_bound : world := set_irq 5 true w_idle.

(** Values for what is declared outside the driver: an ioctl number, the
    jiffies conversion at HZ = 100 and a 32-bit [unsigned long]. *)
Definition sample_atn : Z := 0xb100.
Definition jiffies_at_100hz (m : Z) : Z := (m + 9) / 10.
Definition sample_bits : Z := 32.

Definition pf_irq : platform := mkPlatform true true true true 0 5 IrqGranted.
Definition pf_noirq : platform := mkPlatform true true true true 0 0 IrqGranted.

(** ** Bits of the control register *)

Lemma land_recv_lor a old :
  Z.land a 128 = 0 ->
  Z.land (Z.lor a (Z.land old 128)) 128 = Z.land old 128.
Proof.
  intros Ha. rewrite Z.land_lor_distr_l, Ha, Z.lor_0_l, <- Z.land_assoc.
  reflexivity.
Qed.

Lemma recv_set_after_mask old :
  recv_set (ctrl_after_write old (MBOX_CTRL_MASK mod 256)) = recv_set old.
Proof.
  unfold recv_set, ctrl_after_write, MBOX_CTRL_MASK, MBOX_CTRL_RECV.
  change (Z.testbit (2 mod 256) 7) with false; cbv iota.
  now rewrite land_recv_lor.
Qed.

Lemma recv_clear_after_ack old :
  recv_set (ctrl_after_write old (MBOX_CTRL_RECV mod 256)) = false.
Proof. reflexivity. Qed.

Lemma recv_set_after_send old :
  recv_set (ctrl_after_write old (MBOX_CTRL_SEND mod 256)) = recv_set old.
Proof.
  unfold recv_set, ctrl_after_write, MBOX_CTRL_SEND, MBOX_CTRL_RECV.
  change (Z.testbit (1 mod 256) 7) with false; cbv iota.
  now rewrite land_recv_lor.
Qed.

Lemma recv_set_after_assert old : recv_set (Z.lor old MBOX_CTRL_RECV) = true.
Proof.
  unfold recv_set, MBOX_CTRL_RECV.
  rewrite Z.land_lor_distr_l. change (Z.land 128 128) with 128.
  destruct (Z.eqb_spec (Z.lor (Z.land old 128) 128) 0) as [E|]; [|reflexivity].
  apply Z.lor_eq_0_iff in E. lia.
Qed.

Lemma recv_ready_peer_assert w :
  recv_ready (set_regs (peer_assert (regs w)) w) = true.
Proof.
  unfold recv_ready, peer_assert, reg_get; cbn.
  rewrite lookup_insert_eq; cbn. apply recv_set_after_assert.
Qed.

(** ** Traces only grow *)

Lemma new_events_app w w' evs :
  trace w' = trace w ++ evs -> new_events w w' = evs.
Proof.
  intros E. unfold new_events. rewrite E. now rewrite drop_app_length.
Qed.

Lemma grows_refl P w : grows P w w.
Proof. exists []. now rewrite app_nil_r. Qed.

Lemma grows_trans P w1 w2 w3 : grows P w1 w2 -> grows P w2 w3 -> grows P w1 w3.
Proof.
  intros (e1 & E1 & F1) (e2 & E2 & F2). exists (e1 ++ e2).
  rewrite E2, E1, app_assoc. split; [reflexivity | now apply Forall_app].
Qed.

Lemma grows_log (P : event -> Prop) e w : P e -> grows P w (log e w).
Proof. intros H. exists [e]. split; [reflexivity | now constructor]. Qed.

Lemma grows_same_trace P w w' : trace w' = trace w -> grows P w w'.
Proof. intros E. exists []. now rewrite E, app_nil_r. Qed.

Lemma grows_new_events P w w' : grows P w w' -> Forall P (new_events w w').
Proof. intros (evs & E & F). now rewrite (new_events_app _ _ _ E). Qed.

(** ** Worlds in explicit form *)

Lemma patch_patch r1 m1 e1 r2 m2 e2 w :
  patch r2 m2 e2 (patch r1 m1 e1 w) = patch r2 m2 (e1 ++ e2) w.
Proof. unfold patch; cbn. now rewrite app_assoc. Qed.

Lemma patch_id w : patch (regs w) (umem w) [] w = w.
Proof. destruct w; unfold patch; cbn. now rewrite app_nil_r. Qed.

Lemma log_patch e r m evs w :
  log e (patch r m evs w) = patch r m (evs ++ [e]) w.
Proof. unfold log, patch; cbn. now rewrite app_assoc. Qed.

Lemma log_as_patch e w : log e w = patch (regs w) (umem w) [e] w.
Proof. reflexivity. Qed.

Lemma mbox_outb_patch v reg w :
  mbox_outb v reg w
  = patch (hw_write (regs w) reg (v mod 256)) (umem w) [EvOut (v mod 256) reg] w.
Proof. reflexivity. Qed.

Lemma grows_patch (P : event -> Prop) r m evs w :
  Forall P evs -> grows P w (patch r m evs w).
Proof. intros F. now exists evs. Qed.

(** ** Slots *)

Lemma slots_from_S i n : slots_from i (S n) = Z.of_nat i :: slots_from (S i) n.
Proof. reflexivity. Qed.

Lemma slots_from_snoc i n :
  slots_from i (S n) = slots_from i n ++ [Z.of_nat (i + n)].
Proof. unfold slots_from. now rewrite seq_S, map_app. Qed.

Lemma slot_off_4 i : slot_off i = 4 * i.
Proof. unfold slot_off, MBOX_DATA_0. lia. Qed.

Lemma elem_slots_from j i n :
  In j (slots_from i n) <-> exists k : nat, j = Z.of_nat k /\ (i <= k < i + n)%nat.
Proof.
  unfold slots_from. rewrite in_map_iff. split.
  - intros (k & <- & Hk). apply in_seq in Hk. eauto.
  - intros (k & -> & Hk). exists k. split; [reflexivity | now apply in_seq].
Qed.

(** ** The drain loop of read *)

Lemma drain_mem_cons r buf j js m :
  drain_mem r buf (j :: js) m
  = drain_mem r buf js (<[buf + j := reg_get r (slot_off j)]> m).
Proof. reflexivity. Qed.

Lemma drain_mem_other r buf js m a :
  (forall j, In j js -> a <> buf + j) ->
  drain_mem r buf js m !! a = m !! a.
Proof.
  revert m; induction js as [|j js IH]; intros m H; [reflexivity|].
  rewrite drain_mem_cons, IH by (intros; apply H; now right).
  apply lookup_insert_ne. intros E. apply (H j); [now left | congruence].
Qed.

Lemma drain_mem_slot r buf i n m (k : nat) :
  (i <= k < i + n)%nat ->
  drain_mem r buf (slots_from i n) m !! (buf + Z.of_nat k)
  = Some (reg_get r (slot_off (Z.of_nat k))).
Proof.
  revert i m; induction n as [|n IH]; intros i m Hk; [lia|].
  rewrite slots_from_S, drain_mem_cons.
  destruct (decide (k = i)) as [->|Hne].
  - rewrite drain_mem_other.
    + apply lookup_insert_eq.
    + intros j Hj. apply elem_slots_from in Hj as (k' & -> & Hk'). lia.
  - apply IH. lia.
Qed.

Lemma read_loop_ok n : forall (i : nat) buf w,
  (forall j : nat, (i <= j < i + n)%nat -> is_Some (umem w !! (buf + Z.of_nat j))) ->
  read_loop n (Z.of_nat i) (buf + Z.of_nat i) w
  = (0, buf + Z.of_nat (i + n),
     patch (regs w) (drain_mem (regs w) buf (slots_from i n) (umem w))
           (drain_events (regs w) buf (slots_from i n)) w).
Proof.
  induction n as [|n IH]; intros i buf w Hbuf.
  - cbn. now rewrite Nat.add_0_r, patch_id.
  - cbn [read_loop]. unfold mbox_inb, ioread8, __put_user; cbn [umem log].
    destruct (Hbuf i ltac:(lia)) as [x Hx]. rewrite Hx. cbn [negb Z.eqb].
    replace (Z.of_nat i + 1) with (Z.of_nat (S i)) by lia.
    replace (buf + Z.of_nat i + 1) with (buf + Z.of_nat (S i)) by lia.
    rewrite IH.
    + cbn [regs umem log set_umem]. rewrite slots_from_S.
      replace (i + S n)%nat with (S i + n)%nat by lia.
      f_equal. unfold patch; cbn. rewrite <- !app_assoc. reflexivity.
    + intros j Hj. cbn. rewrite lookup_insert_ne by lia. apply Hbuf. lia.
Qed.

Lemma read_loop_fault n : forall (i k : nat) buf w,
  (k < n)%nat ->
  (forall j : nat, (i <= j < i + k)%nat -> is_Some (umem w !! (buf + Z.of_nat j))) ->
  umem w !! (buf + Z.of_nat (i + k)) = None ->
  exists p,
    read_loop n (Z.of_nat i) (buf + Z.of_nat i) w
    = (- EFAULT, p,
       patch (regs w) (drain_mem (regs w) buf (slots_from i k) (umem w))
             (drain_events (regs w) buf (slots_from i k)
              ++ [EvIn (slot_off (Z.of_nat (i + k)))
                       (reg_get (regs w) (slot_off (Z.of_nat (i + k))))]) w).
Proof.
  induction n as [|n IH]; intros i k buf w Hk Hbuf Hbad; [lia|].
  cbn [read_loop]. unfold mbox_inb, ioread8, __put_user; cbn [umem log].
  destruct k as [|k].
  - rewrite Nat.add_0_r in *. rewrite Hbad. cbn. eexists. reflexivity.
  - destruct (Hbuf i ltac:(lia)) as [x Hx]. rewrite Hx. cbn [negb Z.eqb].
    replace (Z.of_nat i + 1) with (Z.of_nat (S i)) by lia.
    replace (buf + Z.of_nat i + 1) with (buf + Z.of_nat (S i)) by lia.
    destruct (IH (S i) k buf
                (log (EvPut (buf + Z.of_nat i) (reg_get (regs w) (MBOX_DATA_0 + Z.of_nat i * 4)))
                   (set_umem (<[buf + Z.of_nat i := reg_get (regs w) (MBOX_DATA_0 + Z.of_nat i * 4)]> (umem w))
                      (log (EvIn (MBOX_DATA_0 + Z.of_nat i * 4) (reg_get (regs w) (MBOX_DATA_0 + Z.of_nat i * 4))) w))))
      as [p Hp].
    + lia.
    + intros j Hj. cbn. rewrite lookup_insert_ne by lia. apply Hbuf. lia.
    + cbn. rewrite lookup_insert_ne by lia.
      replace (S (i + k))%nat with (i + S k)%nat by lia. exact Hbad.
    + exists p. rewrite Hp. cbn [regs umem log set_umem]. rewrite slots_from_S.
      replace (S i + k)%nat with (i + S k)%nat by lia.
      f_equal. unfold patch; cbn. rewrite <- !app_assoc. reflexivity.
Qed.

(** ** The fill loop of write *)

Lemma hw_write_data r (j : nat) v :
  (j < 16)%nat -> hw_write r (slot_off (Z.of_nat j)) v = <[slot_off (Z.of_nat j) := v]> r.
Proof.
  intros Hj. unfold hw_write, MBOX_BMC_CTRL, MBOX_STATUS_0, MBOX_STATUS_1.
  rewrite slot_off_4.
  destruct (decide (4 * Z.of_nat j = 72)); [lia|].
  destruct (decide (4 * Z.of_nat j = 64 \/ 4 * Z.of_nat j = 68)); [lia|].
  reflexivity.
Qed.

Lemma fill_regs_cons m buf j js r :
  fill_regs m buf (j :: js) r
  = fill_regs m buf js (hw_write r (slot_off j) (user_byte m (buf + j) mod 256)).
Proof. reflexivity. Qed.

Lemma fill_regs_other m buf i n r off :
  (i + n <= 16)%nat ->
  (forall k : nat, (i <= k < i + n)%nat -> off <> slot_off (Z.of_nat k)) ->
  fill_regs m buf (slots_from i n) r !! off = r !! off.
Proof.
  revert i r; induction n as [|n IH]; intros i r Hn H; [reflexivity|].
  rewrite slots_from_S, fill_regs_cons, IH by (try lia; intros; apply H; lia).
  rewrite hw_write_data by lia.
  apply lookup_insert_ne. intros E. apply (H i); [lia | congruence].
Qed.

Lemma fill_regs_slot m buf i n r (k : nat) :
  (i + n <= 16)%nat -> (i <= k < i + n)%nat ->
  reg_get (fill_regs m buf (slots_from i n) r) (slot_off (Z.of_nat k))
  = user_byte m (buf + Z.of_nat k) mod 256.
Proof.
  revert i r; induction n as [|n IH]; intros i r Hn Hk; [lia|].
  rewrite slots_from_S, fill_regs_cons.
  destruct (decide (k = i)) as [->|Hne].
  - unfold reg_get. rewrite fill_regs_other.
    + rewrite hw_write_data by lia. now rewrite lookup_insert_eq.
    + lia.
    + intros k Hk'. rewrite !slot_off_4. lia.
  - apply IH; lia.
Qed.

Lemma fill_regs_ctrl m buf n r :
  (n <= 16)%nat ->
  reg_get (fill_regs m buf (slots n) r) MBOX_BMC_CTRL = reg_get r MBOX_BMC_CTRL.
Proof.
  intros Hn. unfold reg_get, slots. rewrite fill_regs_other; [reflexivity | lia |].
  intros k Hk. rewrite slot_off_4. unfold MBOX_BMC_CTRL. lia.
Qed.

Lemma write_loop_ok n : forall (i : nat) buf w,
  (forall j : nat, (i <= j < i + n)%nat -> is_Some (umem w !! (buf + Z.of_nat j))) ->
  write_loop n (Z.of_nat i) (buf + Z.of_nat i) w
  = (0, buf + Z.of_nat (i + n),
     patch (fill_regs (umem w) buf (slots_from i n) (regs w)) (umem w)
           (fill_events (umem w) buf (slots_from i n)) w).
Proof.
  induction n as [|n IH]; intros i buf w Hbuf.
  - cbn. now rewrite Nat.add_0_r, patch_id.
  - cbn [write_loop]. unfold __get_user.
    destruct (Hbuf i ltac:(lia)) as [x Hx]. rewrite Hx. cbn [negb Z.eqb].
    replace (Z.of_nat i + 1) with (Z.of_nat (S i)) by lia.
    replace (buf + Z.of_nat i + 1) with (buf + Z.of_nat (S i)) by lia.
    rewrite IH.
    + rewrite slots_from_S, fill_regs_cons.
      replace (i + S n)%nat with (S i + n)%nat by lia.
      unfold mbox_outb, iowrite8, patch, fill_events; cbn.
      assert (Hb : user_byte (umem w) (buf + Z.of_nat i) = x)
        by (unfold user_byte; now rewrite Hx).
      rewrite !Hb, <- !app_assoc. reflexivity.
    + intros j Hj. cbn. apply Hbuf. lia.
Qed.

Lemma write_loop_fault n : forall (i k : nat) buf w,
  (k < n)%nat ->
  (forall j : nat, (i <= j < i + k)%nat -> is_Some (umem w !! (buf + Z.of_nat j))) ->
  umem w !! (buf + Z.of_nat (i + k)) = None ->
  exists p,
    write_loop n (Z.of_nat i) (buf + Z.of_nat i) w
    = (- EFAULT, p,
       patch (fill_regs (umem w) buf (slots_from i k) (regs w)) (umem w)
             (fill_events (umem w) buf (slots_from i k)) w).
Proof.
  induction n as [|n IH]; intros i k buf w Hk Hbuf Hbad; [lia|].
  cbn [write_loop]. unfold __get_user.
  destruct k as [|k].
  - rewrite Nat.add_0_r in *. rewrite Hbad. cbn. eexists. now rewrite patch_id.
  - destruct (Hbuf i ltac:(lia)) as [x Hx]. rewrite Hx. cbn [negb Z.eqb].
    replace (Z.of_nat i + 1) with (Z.of_nat (S i)) by lia.
    replace (buf + Z.of_nat i + 1) with (buf + Z.of_nat (S i)) by lia.
    destruct (IH (S i) k buf
                (mbox_outb x (MBOX_DATA_0 + Z.of_nat i * 4)
                   (log (EvGet (buf + Z.of_nat i) x) w))) as [p Hp].
    + lia.
    + intros j Hj. cbn. apply Hbuf. lia.
    + cbn. replace (S (i + k))%nat with (i + S k)%nat by lia. exact Hbad.
    + exists p. rewrite Hp. rewrite slots_from_S, fill_regs_cons.
      unfold mbox_outb, iowrite8, patch, fill_events; cbn.
      assert (Hb : user_byte (umem w) (buf + Z.of_nat i) = x)
        by (unfold user_byte; now rewrite Hx).
      rewrite !Hb, <- !app_assoc. reflexivity.
Qed.

(** ** The interrupt handler and the timer callback *)

Lemma reg_get_hw_write_ctrl r v :
  reg_get (hw_write r MBOX_BMC_CTRL v) MBOX_BMC_CTRL
  = ctrl_after_write (reg_get r MBOX_BMC_CTRL) v.
Proof.
  unfold hw_write. destruct (decide (MBOX_BMC_CTRL = MBOX_BMC_CTRL)); [|congruence].
  unfold reg_get at 1. now rewrite lookup_insert_eq.
Qed.

Lemma mbox_host_irq_eq w :
  mbox_host_irq w =
  if recv_ready w
  then (IRQ_HANDLED,
        patch (hw_write (regs w) MBOX_BMC_CTRL (MBOX_CTRL_MASK mod 256)) (umem w)
              [EvIn MBOX_BMC_CTRL (reg_get (regs w) MBOX_BMC_CTRL);
               EvOut MBOX_CTRL_MASK MBOX_BMC_CTRL; EvWake] w)
  else (IRQ_NONE,
        patch (regs w) (umem w)
              [EvIn MBOX_BMC_CTRL (reg_get (regs w) MBOX_BMC_CTRL)] w).
Proof.
  unfold mbox_host_irq, mbox_inb, ioread8, recv_ready.
  destruct (recv_set (reg_get (regs w) MBOX_BMC_CTRL)); cbn [negb]; [|reflexivity].
  unfold wake_up, mbox_outb, iowrite8, patch, log, set_regs; cbn [regs umem addr_limit sigpend irq irq_bound timer_armed expires jiffies trace].
  change (MBOX_CTRL_MASK mod 256) with MBOX_CTRL_MASK.
  now rewrite <- !app_assoc.
Qed.

Lemma recv_ready_after_irq w :
  recv_ready (snd (mbox_host_irq w)) = recv_ready w.
Proof.
  rewrite mbox_host_irq_eq. destruct (recv_ready w) eqn:E; cbn; [|exact E].
  unfold recv_ready in *; cbn. rewrite reg_get_hw_write_ctrl.
  now rewrite recv_set_after_mask.
Qed.

Lemma poll_timer_eq w :
  poll_timer w =
  mkWorld (regs w) (umem w) (addr_limit w) (sigpend w) (irq w) (irq_bound w)
          true (ulong (expires w + msecs_to_jiffies 500)) (jiffies w)
          (trace w ++ [EvWake; EvAddTimer (ulong (expires w + msecs_to_jiffies 500))]).
Proof.
  unfold poll_timer, add_timer, wake_up, log, set_timer; cbn.
  now rewrite <- app_assoc.
Qed.

(** ** What a wait leaves alone *)

Lemma kept_refl w : kept w w.
Proof. unfold kept. repeat split; auto using grows_refl. Qed.

Lemma kept_trans w1 w2 w3 : kept w1 w2 -> kept w2 w3 -> kept w1 w3.
Proof.
  unfold kept. intros (A1 & A2 & A3 & A4 & A5 & A6 & A7 & A8)
                      (B1 & B2 & B3 & B4 & B5 & B6 & B7 & B8).
  repeat split; try congruence; eauto using grows_trans.
Qed.

Lemma wait_event_ok_in reg v : wait_event_ok (EvIn reg v).
Proof. now split. Qed.

Lemma wait_event_ok_wake : wait_event_ok EvWake.
Proof. now split. Qed.

Lemma wait_event_ok_timer e : wait_event_ok (EvAddTimer e).
Proof. now split. Qed.

Lemma wait_event_ok_mask : wait_event_ok (EvOut MBOX_CTRL_MASK MBOX_BMC_CTRL).
Proof. now split. Qed.

Lemma kept_recv_pending w : kept w (snd (recv_pending w)).
Proof.
  unfold kept, recv_pending, mbox_inb, ioread8; cbn.
  repeat split; auto. apply grows_log, wait_event_ok_in.
Qed.

Lemma recv_pending_eq w :
  recv_pending w
  = (recv_ready w, log (EvIn MBOX_BMC_CTRL (reg_get (regs w) MBOX_BMC_CTRL)) w).
Proof. reflexivity. Qed.

Lemma kept_env_step e w : kept w (snd (env_step e w)).
Proof.
  destruct e; cbn [env_step].
  - unfold kept. repeat split; try reflexivity.
    + now apply grows_same_trace.
    + intros _. apply recv_ready_peer_assert.
  - destruct (irq_bound w); [|apply kept_refl].
    pose proof (recv_ready_after_irq w) as R.
    rewrite mbox_host_irq_eq in *.
    destruct (recv_ready w) eqn:RW; cbn [snd] in *;
      (unfold kept; repeat split; try reflexivity; try congruence;
       apply grows_patch; repeat constructor).
  - destruct (timer_armed w) eqn:T; [|apply kept_refl].
    cbn [snd]. rewrite poll_timer_eq. unfold kept; cbn.
    repeat split; auto.
    eexists; split; [reflexivity|]. repeat constructor.
  - unfold kept. repeat split; try reflexivity; auto.
    now apply grows_same_trace.
Qed.

Lemma kept_sleep_on script : forall w o w1,
  sleep_on script w = (o, w1) -> kept w w1.
Proof.
  induction script as [|e rest IH]; intros w o w1 H; cbn [sleep_on] in H.
  - inversion H; subst. apply kept_refl.
  - pose proof (kept_env_step e w) as K.
    destruct (env_step e w) as [woke w'] eqn:E; cbn in K.
    destruct woke.
    + rewrite recv_pending_eq in H.
      pose proof (kept_recv_pending w') as K'. rewrite recv_pending_eq in K'; cbn in K'.
      destruct (recv_ready w').
      * inversion H; subst. eauto using kept_trans.
      * cbn [sigpend log] in H. destruct (sigpend w').
        -- inversion H; subst. eauto using kept_trans.
        -- apply IH in H. eauto using kept_trans.
    + apply IH in H. eauto using kept_trans.
Qed.

Lemma kept_wait script w o w1 :
  wait_event_interruptible script w = (o, w1) -> kept w w1.
Proof.
  unfold wait_event_interruptible. rewrite !recv_pending_eq.
  pose proof (kept_recv_pending w) as K1. rewrite recv_pending_eq in K1; cbn in K1.
  set (wa := log (EvIn MBOX_BMC_CTRL (reg_get (regs w) MBOX_BMC_CTRL)) w) in *.
  pose proof (kept_recv_pending wa) as K2. rewrite recv_pending_eq in K2; cbn in K2.
  set (wb := log (EvIn MBOX_BMC_CTRL (reg_get (regs wa) MBOX_BMC_CTRL)) wa) in *.
  destruct (recv_ready w); [intros H; inversion H; subst; exact K1|].
  destruct (recv_ready wa); [intros H; inversion H; subst; eauto using kept_trans|].
  destruct (sigpend wb); [intros H; inversion H; subst; eauto using kept_trans|].
  intros H. apply kept_sleep_on in H. eauto using kept_trans.
Qed.

(** ** How a wait ends *)

Lemma wait_ready_now script w :
  recv_ready w = true ->
  wait_event_interruptible script w
  = (Ret 0, log (EvIn MBOX_BMC_CTRL (reg_get (regs w) MBOX_BMC_CTRL)) w).
Proof.
  intros R. unfold wait_event_interruptible. rewrite recv_pending_eq, R. reflexivity.
Qed.

Lemma ended_ready w :
  recv_ready w = true ->
  ended_well 0 (log (EvIn MBOX_BMC_CTRL (reg_get (regs w) MBOX_BMC_CTRL)) w).
Proof.
  intros R. left. repeat split; [exact R|].
  exists (trace w), (reg_get (regs w) MBOX_BMC_CTRL). split; [reflexivity | exact R].
Qed.

Lemma ended_signal w e :
  recv_ready w = false -> sigpend w = true ->
  ended_well (- ERESTARTSYS) (log e w).
Proof. intros R S. right. repeat split; assumption. Qed.

Lemma sleep_on_end script : forall w rc w1,
  sleep_on script w = (Ret rc, w1) -> ended_well rc w1.
Proof.
  induction script as [|e rest IH]; intros w rc w1 H; cbn [sleep_on] in H.
  - discriminate.
  - destruct (env_step e w) as [[] w']; [|eauto].
    rewrite recv_pending_eq in H.
    destruct (recv_ready w') eqn:R.
    { inversion H; subst. now apply ended_ready. }
    cbn [sigpend log] in H. destruct (sigpend w') eqn:S.
    { inversion H; subst. now apply ended_signal. }
    eauto.
Qed.

Lemma wait_end script w rc w1 :
  wait_event_interruptible script w = (Ret rc, w1) -> ended_well rc w1.
Proof.
  unfold wait_event_interruptible. rewrite !recv_pending_eq.
  destruct (recv_ready w) eqn:R.
  { intros H; inversion H; subst. now apply ended_ready. }
  set (wa := log (EvIn MBOX_BMC_CTRL (reg_get (regs w) MBOX_BMC_CTRL)) w).
  assert (Ra : recv_ready wa = false) by exact R. rewrite Ra.
  cbn [sigpend log]. destruct (sigpend wa) eqn:S.
  { intros H; inversion H; subst. now apply ended_signal. }
  apply sleep_on_end.
Qed.

(** Once RECV is set, a sleeping reader is never sent away by a signal. *)
Lemma sleep_on_ready script : forall w rc w1,
  recv_ready w = true -> sleep_on script w = (Ret rc, w1) -> rc = 0.
Proof.
  induction script as [|e rest IH]; intros w rc w1 R H; cbn [sleep_on] in H.
  - discriminate.
  - pose proof (kept_env_step e w) as K.
    destruct (env_step e w) as [woke w']. cbn [snd] in K.
    assert (R' : recv_ready w' = true) by (apply K, R).
    destruct woke; [|eauto].
    rewrite recv_pending_eq, R' in H. now inversion H.
Qed.

(** A wait that a signal ends has written no register and copied nothing. *)
Lemma sleep_on_silent script : forall w rc w1,
  sleep_on script w = (Ret rc, w1) -> rc <> 0 ->
  regs w1 = regs w /\ grows silent w w1.
Proof.
  induction script as [|e rest IH]; intros w rc w1 H Hrc; cbn [sleep_on] in H.
  - discriminate.
  - assert (Step : forall w', regs w' = regs w -> grows silent w w' ->
              (let '(c, w2) := recv_pending w' in
               if c then (Ret 0, w2)
               else if sigpend w2 then (Ret (- ERESTARTSYS), w2)
               else sleep_on rest w2) = (Ret rc, w1) ->
              regs w1 = regs w /\ grows silent w w1).
    { intros w' Hr Hg Hc. rewrite recv_pending_eq in Hc.
      assert (G : grows silent w (log (EvIn MBOX_BMC_CTRL (reg_get (regs w') MBOX_BMC_CTRL)) w')).
      { eapply grows_trans; [exact Hg|]. apply grows_log. now split. }
      destruct (recv_ready w'); [inversion Hc; congruence|].
      cbn [sigpend log] in Hc. destruct (sigpend w').
      - inversion Hc; subst. split; [exact Hr | exact G].
      - apply IH in Hc; [|exact Hrc]. destruct Hc as [Hr' Hg'].
        split; [rewrite Hr'; exact Hr | eauto using grows_trans]. }
    destruct e; cbn [env_step] in H.
    + apply sleep_on_ready in H; [contradiction | apply recv_ready_peer_assert].
    + destruct (irq_bound w).
      * pose proof (recv_ready_after_irq w) as RI.
        rewrite mbox_host_irq_eq in H, RI.
        destruct (recv_ready w) eqn:R; cbn [snd] in RI.
        -- rewrite recv_pending_eq, RI in H. inversion H; congruence.
        -- apply IH in H; [|exact Hrc]. destruct H as [Hr Hg]. split; [exact Hr|].
           eapply grows_trans; [|exact Hg]. apply grows_patch. now repeat constructor.
      * eauto.
    + destruct (timer_armed w).
      * apply Step in H; [exact H | now rewrite poll_timer_eq |].
        rewrite poll_timer_eq. eexists; split; [reflexivity|]. now repeat constructor.
      * eauto.
    + apply Step in H; [exact H | reflexivity | now apply grows_same_trace].
Qed.

Lemma wait_silent script w rc w1 :
  wait_event_interruptible script w = (Ret rc, w1) -> rc <> 0 ->
  regs w1 = regs w /\ grows silent w w1.
Proof.
  unfold wait_event_interruptible. rewrite !recv_pending_eq.
  destruct (recv_ready w) eqn:R; [intros H; inversion H; congruence|].
  set (wa := log (EvIn MBOX_BMC_CTRL (reg_get (regs w) MBOX_BMC_CTRL)) w).
  assert (Ra : recv_ready wa = false) by exact R. rewrite Ra.
  set (wb := log (EvIn MBOX_BMC_CTRL (reg_get (regs wa) MBOX_BMC_CTRL)) wa).
  assert (G : grows silent w wb).
  { exists [EvIn MBOX_BMC_CTRL (reg_get (regs w) MBOX_BMC_CTRL);
            EvIn MBOX_BMC_CTRL (reg_get (regs wa) MBOX_BMC_CTRL)].
    split; [cbn; now rewrite <- app_assoc | now repeat constructor]. }
  destruct (sigpend wb).
  - intros H _; inversion H; subst. split; [reflexivity | exact G].
  - intros H Hrc. apply sleep_on_silent in H; [|exact Hrc].
    destruct H as [Hr Hg]. split; [exact Hr | eauto using grows_trans].
Qed.

(** A wait that has not returned 0 never read the status register with
    RECV set. *)
Lemma sleep_on_unseen script : forall w o w1,
  sleep_on script w = (o, w1) -> o <> Ret 0 ->
  grows (fun e => saw_recv e = false) w w1.
Proof.
  induction script as [|e rest IH]; intros w o w1 H Ho; cbn [sleep_on] in H.
  - inversion H; subst. apply grows_refl.
  - assert (Step : forall w', grows (fun e => saw_recv e = false) w w' ->
              (let '(c, w2) := recv_pending w' in
               if c then (Ret 0, w2)
               else if sigpend w2 then (Ret (- ERESTARTSYS), w2)
               else sleep_on rest w2) = (o, w1) ->
              grows (fun e => saw_recv e = false) w w1).
    { intros w' Hg Hc. rewrite recv_pending_eq in Hc.
      destruct (recv_ready w') eqn:R; [inversion Hc; congruence|].
      assert (G : grows (fun e => saw_recv e = false) w
                    (log (EvIn MBOX_BMC_CTRL (reg_get (regs w') MBOX_BMC_CTRL)) w')).
      { eapply grows_trans; [exact Hg|]. apply grows_log. cbn. exact R. }
      cbn [sigpend log] in Hc. destruct (sigpend w').
      - inversion Hc; subst. exact G.
      - apply IH in Hc; [|exact Ho]. eauto using grows_trans. }
    destruct e; cbn [env_step] in H.
    + apply IH in H; [|exact Ho]. eapply grows_trans; [|exact H].
      now apply grows_same_trace.
    + destruct (irq_bound w); [|eauto].
      pose proof (recv_ready_after_irq w) as RI.
      rewrite mbox_host_irq_eq in H, RI.
      destruct (recv_ready w) eqn:R; cbn [snd] in RI.
      * rewrite recv_pending_eq, RI in H. inversion H; congruence.
      * apply IH in H; [|exact Ho]. eapply grows_trans; [|exact H].
        apply grows_patch. repeat constructor. cbn. exact R.
    + destruct (timer_armed w); [|eauto].
      apply Step in H; [exact H|].
      rewrite poll_timer_eq. eexists; split; [reflexivity|]. now repeat constructor.
    + apply Step in H; [exact H | now apply grows_same_trace].
Qed.

Lemma wait_unseen script w o w1 :
  wait_event_interruptible script w = (o, w1) -> o <> Ret 0 ->
  grows (fun e => saw_recv e = false) w w1.
Proof.
  unfold wait_event_interruptible. rewrite !recv_pending_eq.
  destruct (recv_ready w) eqn:R; [intros H; inversion H; congruence|].
  set (wa := log (EvIn MBOX_BMC_CTRL (reg_get (regs w) MBOX_BMC_CTRL)) w).
  assert (Ra : recv_ready wa = false) by exact R. rewrite Ra.
  set (wb := log (EvIn MBOX_BMC_CTRL (reg_get (regs wa) MBOX_BMC_CTRL)) wa).
  assert (G : grows (fun e => saw_recv e = false) w wb).
  { exists [EvIn MBOX_BMC_CTRL (reg_get (regs w) MBOX_BMC_CTRL);
            EvIn MBOX_BMC_CTRL (reg_get (regs wa) MBOX_BMC_CTRL)].
    split; [cbn; now rewrite <- app_assoc|].
    repeat constructor; cbn; exact R. }
  destruct (sigpend wb).
  - intros H _; inversion H; subst. exact G.
  - intros H Ho. apply sleep_on_unseen in H; [|exact Ho]. eauto using grows_trans.
Qed.

(** ** read and write as a whole *)

Lemma first_fault (m : gmap Z Z) buf n :
  (forall j : nat, (j < n)%nat -> is_Some (m !! (buf + Z.of_nat j)))
  \/ exists k : nat, (k < n)%nat
       /\ (forall j : nat, (j < k)%nat -> is_Some (m !! (buf + Z.of_nat j)))
       /\ m !! (buf + Z.of_nat k) = None.
Proof.
  induction n as [|n [IH|(k & Hk & Hok & Hbad)]].
  - left. intros j Hj. lia.
  - destruct (m !! (buf + Z.of_nat n)) eqn:E.
    + left. intros j Hj. destruct (decide (j = n)) as [->|]; [eauto | apply IH; lia].
    + right. exists n. repeat split; [lia | intros; apply IH; lia | exact E].
  - right. exists k. repeat split; [lia | exact Hok | exact Hbad].
Qed.

Lemma read_after_wait buf count script w w1 :
  access_ok buf count w = true ->
  wait_event_interruptible script w = (Ret 0, w1) ->
  mbox_host_read buf count script w =
  match read_loop MBOX_NUM_DATA_REGS 0 buf w1 with
  | (err, p, w2) =>
      if negb (err =? 0) then (Ret err, w2)
      else (Ret (p - buf), mbox_outb MBOX_CTRL_RECV MBOX_BMC_CTRL w2)
  end.
Proof.
  intros A W. unfold mbox_host_read. rewrite A, W. reflexivity.
Qed.

Lemma read_ok buf count script w w1 :
  access_ok buf count w = true ->
  wait_event_interruptible script w = (Ret 0, w1) ->
  buffer_ok buf MBOX_NUM_DATA_REGS w1 ->
  mbox_host_read buf count script w
  = (Ret 14,
     patch (hw_write (regs w1) MBOX_BMC_CTRL MBOX_CTRL_RECV)
           (drain_mem (regs w1) buf (slots MBOX_NUM_DATA_REGS) (umem w1))
           (drain_events (regs w1) buf (slots MBOX_NUM_DATA_REGS)
            ++ [EvOut MBOX_CTRL_RECV MBOX_BMC_CTRL]) w1).
Proof.
  intros A W B. rewrite (read_after_wait _ _ _ _ _ A W).
  pose proof (read_loop_ok MBOX_NUM_DATA_REGS 0 buf w1) as L.
  change (Z.of_nat 0) with 0 in L; change (0 + ?n)%nat with n in L; rewrite Z.add_0_r in L.
  rewrite L by (intros j Hj; apply B; lia).
  cbn [Z.eqb negb]. rewrite mbox_outb_patch, patch_patch.
  cbn [regs umem patch]. change (MBOX_CTRL_RECV mod 256) with MBOX_CTRL_RECV.
  f_equal. f_equal. unfold MBOX_NUM_DATA_REGS. lia.
Qed.

Lemma read_fault buf count script w w1 (k : nat) :
  access_ok buf count w = true ->
  wait_event_interruptible script w = (Ret 0, w1) ->
  (k < MBOX_NUM_DATA_REGS)%nat ->
  buffer_ok buf k w1 ->
  umem w1 !! (buf + Z.of_nat k) = None ->
  mbox_host_read buf count script w
  = (Ret (- EFAULT),
     patch (regs w1) (drain_mem (regs w1) buf (slots k) (umem w1))
           (drain_events (regs w1) buf (slots k)
            ++ [EvIn (slot_off (Z.of_nat k))
                     (reg_get (regs w1) (slot_off (Z.of_nat k)))]) w1).
Proof.
  intros A W Hk B Bad. rewrite (read_after_wait _ _ _ _ _ A W).
  destruct (read_loop_fault MBOX_NUM_DATA_REGS 0 k buf w1 Hk) as [p L].
  - intros j Hj. apply B. lia.
  - exact Bad.
  - change (Z.of_nat 0) with 0 in L; change (0 + ?n)%nat with n in L; rewrite Z.add_0_r in L. rewrite L. reflexivity.
Qed.

Lemma write_ok buf count w :
  access_ok buf count w = true ->
  buffer_ok buf MBOX_NUM_DATA_REGS w ->
  mbox_host_write buf count w
  = (14,
     patch (hw_write (fill_regs (umem w) buf (slots MBOX_NUM_DATA_REGS) (regs w))
                     MBOX_BMC_CTRL MBOX_CTRL_SEND)
           (umem w)
           (fill_events (umem w) buf (slots MBOX_NUM_DATA_REGS)
            ++ [EvOut MBOX_CTRL_SEND MBOX_BMC_CTRL]) w).
Proof.
  intros A B. unfold mbox_host_write. rewrite A. cbn [negb].
  pose proof (write_loop_ok MBOX_NUM_DATA_REGS 0 buf w) as L.
  change (Z.of_nat 0) with 0 in L; change (0 + ?n)%nat with n in L; rewrite Z.add_0_r in L.
  rewrite L by (intros j Hj; apply B; lia).
  cbn [Z.eqb negb]. rewrite mbox_outb_patch, patch_patch.
  cbn [regs umem patch]. change (MBOX_CTRL_SEND mod 256) with MBOX_CTRL_SEND.
  f_equal. unfold MBOX_NUM_DATA_REGS. lia.
Qed.

Lemma write_fault buf count w (k : nat) :
  access_ok buf count w = true ->
  (k < MBOX_NUM_DATA_REGS)%nat ->
  buffer_ok buf k w ->
  umem w !! (buf + Z.of_nat k) = None ->
  mbox_host_write buf count w
  = (- EFAULT,
     patch (fill_regs (umem w) buf (slots k) (regs w)) (umem w)
           (fill_events (umem w) buf (slots k)) w).
Proof.
  intros A Hk B Bad. unfold mbox_host_write. rewrite A. cbn [negb].
  destruct (write_loop_fault MBOX_NUM_DATA_REGS 0 k buf w Hk) as [p L].
  - intros j Hj. apply B. lia.
  - exact Bad.
  - change (Z.of_nat 0) with 0 in L; change (0 + ?n)%nat with n in L; rewrite Z.add_0_r in L. rewrite L. reflexivity.
Qed.

(** ** Which writes clear RECV *)

Lemma grows_in P w w' e : grows P w w' -> In e (new_events w w') -> P e.
Proof.
  intros G%grows_new_events Hin.
  rewrite Forall_forall in G. apply G. now apply list_elem_of_In.
Qed.

Lemma grows_weaken (P Q : event -> Prop) w w' :
  (forall e, P e -> Q e) -> grows P w w' -> grows Q w w'.
Proof.
  intros PQ (evs & E & F). exists evs. split; [exact E|].
  eapply Forall_impl; eauto.
Qed.

Lemma drain_events_plain r buf js e :
  In e (drain_events r buf js) -> is_out e = false /\ clears_recv e = false.
Proof.
  unfold drain_events. rewrite in_flat_map. intros (j & _ & [<-|[<-|[]]]); now split.
Qed.

Lemma fill_events_quiet m buf (k : nat) e :
  (k <= 16)%nat -> In e (fill_events m buf (slots k)) -> clears_recv e = false.
Proof.
  intros Hk. unfold fill_events. rewrite in_flat_map.
  intros (j & Hj & [<-|[<-|[]]]); [reflexivity|].
  apply elem_slots_from in Hj as (i & -> & Hi). cbn.
  rewrite slot_off_4. unfold MBOX_BMC_CTRL.
  destruct (Z.eqb_spec (4 * Z.of_nat i) 72); [lia | reflexivity].
Qed.

Lemma Forall_in (P : event -> Prop) l : (forall e, In e l -> P e) -> Forall P l.
Proof. intros H. apply Forall_forall. intros e He. apply H. now apply list_elem_of_In. Qed.

Lemma write_quiet buf count w :
  grows (fun e => clears_recv e = false) w (snd (mbox_host_write buf count w)).
Proof.
  destruct (access_ok buf count w) eqn:A.
  - destruct (first_fault (umem w) buf MBOX_NUM_DATA_REGS) as [B|(k & Hk & B & Bad)].
    + rewrite (write_ok _ _ _ A B). apply grows_patch, Forall_app. split.
      * apply Forall_in. intros e. apply fill_events_quiet. unfold MBOX_NUM_DATA_REGS. lia.
      * now repeat constructor.
    + rewrite (write_fault _ _ _ _ A Hk B Bad). apply grows_patch.
      apply Forall_in. intros e. apply fill_events_quiet.
      unfold MBOX_NUM_DATA_REGS in Hk. lia.
  - unfold mbox_host_write. rewrite A. apply grows_refl.
Qed.

Lemma ioctl_quiet cmd param w :
  grows (fun e => clears_recv e = false) w (snd (mbox_host_ioctl cmd param w)).
Proof.
  unfold mbox_host_ioctl. destruct (cmd =? MBOX_HOST_IOCTL_ATN); [|apply grows_refl].
  cbn [snd]. rewrite mbox_outb_patch. apply grows_patch. now repeat constructor.
Qed.

Lemma poll_quiet w :
  grows (fun e => clears_recv e = false) w (snd (mbox_host_poll w)).
Proof.
  exists [EvPollWait; EvIn MBOX_BMC_CTRL (reg_get (regs w) MBOX_BMC_CTRL)].
  split; [cbn; now rewrite <- app_assoc | now repeat constructor].
Qed.

Lemma env_quiet e w :
  grows (fun e => clears_recv e = false) w (snd (env_step e w)).
Proof.
  destruct (kept_env_step e w) as (_ & _ & _ & _ & _ & _ & G & _).
  eapply grows_weaken; [|exact G]. now intros ? [_ ?].
Qed.

Lemma wait_quiet script w o w1 :
  wait_event_interruptible script w = (o, w1) ->
  grows (fun e => clears_recv e = false) w w1.
Proof.
  intros (_ & _ & _ & _ & _ & _ & G & _)%kept_wait.
  eapply grows_weaken; [|exact G]. now intros ? [_ ?].
Qed.

Lemma read_clears_on_success buf count script w e :
  In e (new_events w (snd (mbox_host_read buf count script w))) ->
  clears_recv e = true ->
  fst (mbox_host_read buf count script w) = Ret 14.
Proof.
  intros Hin Hc.
  assert (Quiet : forall w', grows (fun e => clears_recv e = false) w w' ->
                    In e (new_events w w') -> False).
  { intros w' G Hin'. pose proof (grows_in _ _ _ _ G Hin') as Hq. cbn in Hq. congruence. }
  destruct (access_ok buf count w) eqn:A.
  2:{ unfold mbox_host_read in Hin. rewrite A in Hin. cbn in Hin.
      exfalso. eapply Quiet; [apply grows_refl | exact Hin]. }
  destruct (wait_event_interruptible script w) as [[rc|] w1] eqn:W.
  2:{ unfold mbox_host_read in Hin. rewrite A, W in Hin. cbn in Hin.
      exfalso. eapply Quiet; [eapply wait_quiet; exact W | exact Hin]. }
  destruct (wait_end _ _ _ _ W) as [(-> & _)|(-> & _)].
  2:{ unfold mbox_host_read in Hin. rewrite A, W in Hin. cbn in Hin.
      exfalso. eapply Quiet; [eapply wait_quiet; exact W | exact Hin]. }
  destruct (first_fault (umem w1) buf MBOX_NUM_DATA_REGS) as [B|(k & Hk & B & Bad)].
  - now rewrite (read_ok _ _ _ _ _ A W B).
  - rewrite (read_fault _ _ _ _ _ _ A W Hk B Bad) in Hin. cbn [snd] in Hin.
    exfalso. eapply Quiet; [|exact Hin].
    eapply grows_trans; [eapply wait_quiet; exact W|].
    apply grows_patch, Forall_app. split.
    + apply Forall_in. intros e' He'. now apply drain_events_plain in He'.
    + now repeat constructor.
Qed.

(** C1: the interrupt handler reports IRQ_NONE when RECV is not set, after
    one read of the status register and nothing else (no write, no wake);
    when RECV is set it writes MASK alone to the status register, then wakes
    the waiters, and reports IRQ_HANDLED.  MASK has no RECV bit and RECV
    reads after the handler as it did before; the timer callback leaves the
    registers alone.  Among the file operations and the notification
    sources, a write that clears RECV comes from a read that returns the
    frame size and from nothing else. *)
Theorem irq_masks_and_only_read_clears_recv :
  (forall w,
     mbox_host_irq w =
     if recv_ready w
     then (IRQ_HANDLED,
           patch (hw_write (regs w) MBOX_BMC_CTRL MBOX_CTRL_MASK) (umem w)
                 [EvIn MBOX_BMC_CTRL (reg_get (regs w) MBOX_BMC_CTRL);
                  EvOut MBOX_CTRL_MASK MBOX_BMC_CTRL; EvWake] w)
     else (IRQ_NONE,
           patch (regs w) (umem w)
                 [EvIn MBOX_BMC_CTRL (reg_get (regs w) MBOX_BMC_CTRL)] w))
  /\ clears_recv (EvOut MBOX_CTRL_MASK MBOX_BMC_CTRL) = false
  /\ (forall w, recv_ready (snd (mbox_host_irq w)) = recv_ready w)
  /\ (forall w, regs (poll_timer w) = regs w)
  /\ (forall o w e,
        In e (new_events w (snd (exec (RunOp o) w))) -> clears_recv e = true ->
        is_read (RunOp o) = true /\ fst (exec (RunOp o) w) = Ret 14).
Proof.
  split; [exact mbox_host_irq_eq|]. split; [reflexivity|].
  split; [exact recv_ready_after_irq|]. split; [intros w; now rewrite poll_timer_eq|].
  intros o w e Hin Hc.
  assert (Quiet : forall w', grows (fun e => clears_recv e = false) w w' ->
                    In e (new_events w w') -> False).
  { intros w' G Hin'. pose proof (grows_in _ _ _ _ G Hin') as Hq. cbn in Hq. congruence. }
  destruct o as [buf count script|buf count|cmd param| |ev]; cbn [exec returned snd] in *.
  - split; [reflexivity|]. eapply read_clears_on_success; eauto.
  - exfalso. eapply Quiet; [apply write_quiet | exact Hin].
  - exfalso. eapply Quiet; [apply ioctl_quiet | exact Hin].
  - exfalso. eapply Quiet; [apply poll_quiet | exact Hin].
  - exfalso. eapply Quiet; [apply env_quiet | exact Hin].
Qed.


(** ** The readiness query *)

(** C8: poll first registers the caller on the wait queue and only then
    reads the status register; it writes no register (the registers are the
    same afterwards) and it reports POLLIN exactly when RECV reads set. *)
Theorem poll_registers_then_reads_recv :
  forall w,
    mbox_host_poll w
    = (if recv_ready w then POLLIN else 0,
       patch (regs w) (umem w)
             [EvPollWait; EvIn MBOX_BMC_CTRL (reg_get (regs w) MBOX_BMC_CTRL)] w)
    /\ regs (snd (mbox_host_poll w)) = regs w
    /\ Forall (fun e => is_out e = false) (new_events w (snd (mbox_host_poll w)))
    /\ (fst (mbox_host_poll w) <> 0 <-> recv_ready w = true).
Proof.
  intros w.
  assert (E : mbox_host_poll w
              = (if recv_ready w then POLLIN else 0,
                 patch (regs w) (umem w)
                   [EvPollWait; EvIn MBOX_BMC_CTRL (reg_get (regs w) MBOX_BMC_CTRL)] w)).
  { unfold mbox_host_poll, poll_wait, mbox_inb, ioread8, recv_ready, patch, log; cbn.
    rewrite <- app_assoc. now destruct (recv_set _). }
  rewrite E. cbn [fst snd]. repeat split.
  - erewrite new_events_app by reflexivity. now repeat constructor.
  - destruct (recv_ready w); [reflexivity | congruence].
  - intros ->. discriminate.
Qed.

(** ** The blocking read *)

Lemma buffer_ok_kept buf n w w1 : kept w w1 -> buffer_ok buf n w -> buffer_ok buf n w1.
Proof. intros (U & _) B j Hj. rewrite U. now apply B. Qed.

Lemma access_ok_kept buf n w w1 : kept w w1 -> access_ok buf n w1 = access_ok buf n w.
Proof. intros (_ & L & _). unfold access_ok. now rewrite L. Qed.

Lemma drain_mem_frame r buf n m (j : nat) :
  (j < n)%nat ->
  drain_mem r buf (slots n) m !! (buf + Z.of_nat j)
  = Some (reg_get r (slot_off (Z.of_nat j))).
Proof. intros Hj. apply drain_mem_slot. lia. Qed.

Lemma drain_mem_outside r buf n m a :
  (a < buf \/ buf + Z.of_nat n <= a) ->
  drain_mem r buf (slots n) m !! a = m !! a.
Proof.
  intros Ha. apply drain_mem_other. intros j Hj.
  apply elem_slots_from in Hj as (k & -> & Hk). lia.
Qed.

(** C2: with a valid buffer, read goes on only after a read of the status
    register that found RECV set; it then copies the 14 payload slots from
    the data registers to the buffer in ascending slot order, writes RECV
    to the status register once, after the copy, and returns 14.  As long
    as RECV has not been read set, read stays asleep (or is sent away by a
    signal) and copies nothing.  When RECV is set on entry, read returns at
    once. *)
Theorem read_waits_drains_then_acks :
  forall buf count script w,
    access_ok buf count w = true ->
    buffer_ok buf MBOX_NUM_DATA_REGS w ->
    (forall w1,
       wait_event_interruptible script w = (Ret 0, w1) ->
       recv_ready w1 = true
       /\ (exists pre v, trace w1 = pre ++ [EvIn MBOX_BMC_CTRL v] /\ recv_set v = true)
       /\ mbox_host_read buf count script w
          = (Ret (Z.of_nat MBOX_NUM_DATA_REGS),
             patch (hw_write (regs w1) MBOX_BMC_CTRL MBOX_CTRL_RECV)
                   (drain_mem (regs w1) buf (slots MBOX_NUM_DATA_REGS) (umem w1))
                   (drain_events (regs w1) buf (slots MBOX_NUM_DATA_REGS)
                    ++ [EvOut MBOX_CTRL_RECV MBOX_BMC_CTRL]) w1)
       /\ (forall j : nat, (j < MBOX_NUM_DATA_REGS)%nat ->
             umem (snd (mbox_host_read buf count script w)) !! (buf + Z.of_nat j)
             = Some (reg_get (regs w1) (slot_off (Z.of_nat j)))))
    /\ (forall o w1,
          wait_event_interruptible script w = (o, w1) -> o <> Ret 0 ->
          mbox_host_read buf count script w
          = (match o with Blocked => Blocked | Ret _ => Ret (- ERESTARTSYS) end, w1)
          /\ umem w1 = umem w
          /\ Forall (fun e => saw_recv e = false /\ clears_recv e = false)
                    (new_events w w1))
    /\ (recv_ready w = true ->
        fst (mbox_host_read buf count script w) = Ret (Z.of_nat MBOX_NUM_DATA_REGS)).
Proof.
  intros buf count script w A B. split; [|split].
  - intros w1 W.
    assert (B1 : buffer_ok buf MBOX_NUM_DATA_REGS w1)
      by (eapply buffer_ok_kept; [eapply kept_wait|]; eauto).
    destruct (wait_end _ _ _ _ W) as [(_ & R & P)|(? & _)]; [|discriminate].
    pose proof (read_ok _ _ _ _ _ A W B1) as E.
    split; [exact R|]. split; [exact P|]. split; [exact E|].
    intros j Hj. rewrite E. cbn [snd umem patch]. now apply drain_mem_frame.
  - intros o w1 W Ho. split; [|split].
    + unfold mbox_host_read. rewrite A, W. cbn [negb].
      destruct o as [rc|]; [|reflexivity].
      destruct (wait_end _ _ _ _ W) as [(-> & _)|(-> & _)]; [congruence | reflexivity].
    + now destruct (kept_wait _ _ _ _ W) as (U & _).
    + pose proof (wait_unseen _ _ _ _ W Ho) as G1.
      pose proof (wait_quiet _ _ _ _ W) as G2.
      apply grows_new_events in G1, G2. rewrite Forall_forall in *. intros e He.
      split; [now apply G1 | now apply G2].
  - intros R. erewrite read_ok; [reflexivity | exact A | now apply wait_ready_now |].
    intros j Hj. cbn. now apply B.
Qed.

(** C5: when the wait of a read is ended by a signal, read returns
    -ERESTARTSYS (a negative value, neither a byte count nor zero); up to
    that point no register was written (the registers are the same, RECV
    still reads unset) and nothing was copied to the user; once the peer has
    set RECV, the same read with a valid buffer returns the frame. *)
Theorem read_interrupted_leaves_hardware_alone :
  forall buf count script w rc w1,
    access_ok buf count w = true ->
    wait_event_interruptible script w = (Ret rc, w1) ->
    rc <> 0 ->
    mbox_host_read buf count script w = (Ret (- ERESTARTSYS), w1)
    /\ - ERESTARTSYS < 0
    /\ regs w1 = regs w
    /\ umem w1 = umem w
    /\ Forall silent (new_events w w1)
    /\ recv_ready w1 = recv_ready w
    /\ (forall script',
          buffer_ok buf MBOX_NUM_DATA_REGS w1 ->
          fst (mbox_host_read buf count script' (snd (env_step EnvPeerAssert w1)))
          = Ret (Z.of_nat MBOX_NUM_DATA_REGS)).
Proof.
  intros buf count script w rc w1 A W Hrc.
  destruct (wait_silent _ _ _ _ W Hrc) as [Hr Hg].
  pose proof (kept_wait _ _ _ _ W) as K.
  repeat split.
  - unfold mbox_host_read. rewrite A, W.
    destruct (Z.eqb_spec rc 0); [contradiction | reflexivity].
  - exact Hr.
  - now destruct K.
  - now apply grows_new_events.
  - unfold recv_ready. now rewrite Hr.
  - intros script' B. cbn [env_step snd].
    erewrite read_ok; [reflexivity | | apply wait_ready_now, recv_ready_peer_assert |].
    + unfold access_ok in *. cbn. now rewrite (proj1 (proj2 K)).
    + intros j Hj. cbn. now apply B.
Qed.

Lemma put_addrs_app l1 l2 : put_addrs (l1 ++ l2) = put_addrs l1 ++ put_addrs l2.
Proof. unfold put_addrs. now rewrite flat_map_app. Qed.

Lemma put_addrs_none l : Forall (fun e => is_put e = false) l -> put_addrs l = [].
Proof.
  induction 1 as [|e l He _ IH]; [reflexivity|].
  unfold put_addrs in *; cbn. rewrite IH. now destruct e.
Qed.

Lemma put_addrs_drain r buf js :
  put_addrs (drain_events r buf js) = map (fun j => buf + j) js.
Proof.
  induction js as [|j js IH]; [reflexivity|].
  unfold put_addrs, drain_events in *; cbn. now rewrite IH.
Qed.

Lemma in_regs_drain r buf js : in_regs (drain_events r buf js) = map slot_off js.
Proof.
  induction js as [|j js IH]; [reflexivity|].
  unfold in_regs, drain_events in *; cbn. now rewrite IH.
Qed.

Lemma out_regs_fill m buf js : out_regs (fill_events m buf js) = map slot_off js.
Proof.
  induction js as [|j js IH]; [reflexivity|].
  unfold out_regs, fill_events in *; cbn. now rewrite IH.
Qed.

Lemma wait_no_put script w o w1 :
  wait_event_interruptible script w = (o, w1) ->
  exists evs, trace w1 = trace w ++ evs /\ put_addrs evs = [].
Proof.
  intros (_ & _ & _ & _ & _ & _ & (evs & E & F) & _)%kept_wait.
  exists evs. split; [exact E|]. apply put_addrs_none.
  eapply Forall_impl; [exact F|]. now intros e [? _].
Qed.

(** C9: a read that succeeds has copied exactly 14 bytes, to the 14
    addresses from the start of the buffer, and returns 14, whatever length
    the caller passed: a length below 14 does not bound the copy. *)
Theorem read_copies_frame_whatever_count :
  forall buf count script w rc,
    fst (mbox_host_read buf count script w) = Ret rc ->
    0 <= rc ->
    rc = Z.of_nat MBOX_NUM_DATA_REGS
    /\ put_addrs (new_events w (snd (mbox_host_read buf count script w)))
       = map (fun j => buf + j) (slots MBOX_NUM_DATA_REGS)
    /\ length (put_addrs (new_events w (snd (mbox_host_read buf count script w))))
       = MBOX_NUM_DATA_REGS.
Proof.
  intros buf count script w rc Hfst Hrc.
  assert (Goal1 : rc = 14 /\
            put_addrs (new_events w (snd (mbox_host_read buf count script w)))
            = map (fun j => buf + j) (slots MBOX_NUM_DATA_REGS)).
  { destruct (access_ok buf count w) eqn:A.
    2:{ unfold mbox_host_read in Hfst. rewrite A in Hfst. cbn in Hfst.
        inversion Hfst. unfold EFAULT in *. lia. }
    destruct (wait_event_interruptible script w) as [[rc'|] w1] eqn:W.
    2:{ unfold mbox_host_read in Hfst. rewrite A, W in Hfst. discriminate. }
    destruct (wait_end _ _ _ _ W) as [(-> & _)|(-> & _)].
    2:{ unfold mbox_host_read in Hfst. rewrite A, W in Hfst. cbn in Hfst.
        inversion Hfst. unfold ERESTARTSYS in *. lia. }
    destruct (first_fault (umem w1) buf MBOX_NUM_DATA_REGS) as [B|(k & Hk & B & Bad)].
    - rewrite (read_ok _ _ _ _ _ A W B) in *. cbn [fst snd] in *.
      split; [congruence|].
      destruct (wait_no_put _ _ _ _ W) as (evs & E & P).
      erewrite new_events_app by (cbn [trace patch]; rewrite E, <- app_assoc; reflexivity).
      rewrite !put_addrs_app, P, put_addrs_drain. cbn [app put_addrs flat_map].
      now rewrite app_nil_r.
    - rewrite (read_fault _ _ _ _ _ _ A W Hk B Bad) in Hfst. cbn in Hfst.
      inversion Hfst. unfold EFAULT in *. lia. }
  destruct Goal1 as [-> E]. repeat split; [exact E|].
  rewrite E. unfold slots, slots_from. now rewrite !length_map, length_seq.
Qed.

(** C10: when the copy of a drained byte faults at slot k, read returns
    -EFAULT; no register was written since RECV was found set (the
    registers are the same, RECV still reads set, so a later read with a
    good buffer gets the frame), and the first k bytes of the buffer
    already hold the bytes of slots 0..k-1. *)
Theorem read_fault_keeps_message_and_partial_copy :
  forall buf count script w w1 (k : nat),
    access_ok buf count w = true ->
    wait_event_interruptible script w = (Ret 0, w1) ->
    (k < MBOX_NUM_DATA_REGS)%nat ->
    buffer_ok buf k w1 ->
    umem w1 !! (buf + Z.of_nat k) = None ->
    fst (mbox_host_read buf count script w) = Ret (- EFAULT)
    /\ regs (snd (mbox_host_read buf count script w)) = regs w1
    /\ recv_ready (snd (mbox_host_read buf count script w)) = true
    /\ Forall (fun e => is_out e = false)
              (new_events w1 (snd (mbox_host_read buf count script w)))
    /\ (forall j : nat, (j < k)%nat ->
          umem (snd (mbox_host_read buf count script w)) !! (buf + Z.of_nat j)
          = Some (reg_get (regs w1) (slot_off (Z.of_nat j))))
    /\ (forall buf' count' script',
          access_ok buf' count' w = true ->
          buffer_ok buf' MBOX_NUM_DATA_REGS (snd (mbox_host_read buf count script w)) ->
          fst (mbox_host_read buf' count' script' (snd (mbox_host_read buf count script w)))
          = Ret (Z.of_nat MBOX_NUM_DATA_REGS)).
Proof.
  intros buf count script w w1 k A W Hk B Bad.
  rewrite (read_fault _ _ _ _ _ _ A W Hk B Bad). cbn [fst snd].
  assert (R : recv_ready w1 = true).
  { now destruct (wait_end _ _ _ _ W) as [(_ & R & _)|(? & _)]. }
  pose proof (kept_wait _ _ _ _ W) as K.
  repeat split.
  - exact R.
  - erewrite new_events_app by reflexivity. apply Forall_app. split.
    + apply Forall_in. intros e He. now apply drain_events_plain in He.
    + now repeat constructor.
  - intros j Hj. cbn [umem patch]. now apply drain_mem_frame.
  - intros buf' count' script' A' B'.
    erewrite read_ok; [reflexivity | | apply wait_ready_now; exact R | ].
    + unfold access_ok in *. cbn. now rewrite (proj1 (proj2 K)).
    + intros j Hj. cbn. now apply B'.
Qed.

(** ** write, and write followed by read *)

Lemma reg_get_hw_write_ctrl_other r v off :
  off <> MBOX_BMC_CTRL ->
  reg_get (hw_write r MBOX_BMC_CTRL v) off = reg_get r off.
Proof.
  intros Hne. unfold hw_write.
  destruct (decide (MBOX_BMC_CTRL = MBOX_BMC_CTRL)); [|congruence].
  unfold reg_get. now rewrite lookup_insert_ne by congruence.
Qed.

Lemma reg_get_peer_assert_other r off :
  off <> MBOX_BMC_CTRL -> reg_get (peer_assert r) off = reg_get r off.
Proof.
  intros Hne. unfold peer_assert, reg_get. now rewrite lookup_insert_ne by congruence.
Qed.

Lemma slot_off_not_ctrl (j : nat) : (j < 16)%nat -> slot_off (Z.of_nat j) <> MBOX_BMC_CTRL.
Proof. intros Hj. rewrite slot_off_4. unfold MBOX_BMC_CTRL. lia. Qed.

Lemma out_regs_app l1 l2 : out_regs (l1 ++ l2) = out_regs l1 ++ out_regs l2.
Proof. unfold out_regs. now rewrite flat_map_app. Qed.

Lemma in_regs_app l1 l2 : in_regs (l1 ++ l2) = in_regs l1 ++ in_regs l2.
Proof. unfold in_regs. now rewrite flat_map_app. Qed.

Lemma write_ok_facts buf count w :
  access_ok buf count w = true ->
  buffer_ok buf MBOX_NUM_DATA_REGS w ->
  out_regs (new_events w (snd (mbox_host_write buf count w)))
  = map slot_off (slots MBOX_NUM_DATA_REGS) ++ [MBOX_BMC_CTRL]
  /\ (forall j : nat, (j < MBOX_NUM_DATA_REGS)%nat ->
        reg_get (regs (snd (mbox_host_write buf count w))) (slot_off (Z.of_nat j))
        = user_byte (umem w) (buf + Z.of_nat j) mod 256).
Proof.
  intros A B. rewrite (write_ok _ _ _ A B). cbn [snd]. split.
  - erewrite new_events_app by reflexivity.
    now rewrite out_regs_app, out_regs_fill.
  - intros j Hj. cbn [regs patch]. unfold MBOX_NUM_DATA_REGS in *.
    rewrite reg_get_hw_write_ctrl_other by (apply slot_off_not_ctrl; lia).
    apply fill_regs_slot; lia.
Qed.


(** C4: write of a frame of 14 bytes, then the peer raising RECV without
    touching the data registers, then read: read returns 14 and the
    destination buffer holds the 14 bytes in the same order.  The registers
    write stores to, slot by slot, are the registers read loads from. *)
Theorem write_deliver_read_round_trip :
  forall (b : list Z) src dst c1 c2 script w,
    length b = MBOX_NUM_DATA_REGS ->
    Forall (fun x => 0 <= x < 256) b ->
    (forall j : nat, (j < MBOX_NUM_DATA_REGS)%nat ->
       umem w !! (src + Z.of_nat j) = b !! j) ->
    access_ok src c1 w = true ->
    access_ok dst c2 w = true ->
    buffer_ok dst MBOX_NUM_DATA_REGS w ->
    let w1 := snd (mbox_host_write src c1 w) in
    let w2 := snd (env_step EnvPeerAssert w1) in
    let w3 := snd (mbox_host_read dst c2 script w2) in
    fst (mbox_host_write src c1 w) = Z.of_nat MBOX_NUM_DATA_REGS
    /\ fst (mbox_host_read dst c2 script w2) = Ret (Z.of_nat MBOX_NUM_DATA_REGS)
    /\ (forall j : nat, (j < MBOX_NUM_DATA_REGS)%nat ->
          umem w3 !! (dst + Z.of_nat j) = b !! j)
    /\ out_regs (new_events w w1) = map slot_off (slots MBOX_NUM_DATA_REGS) ++ [MBOX_BMC_CTRL]
    /\ in_regs (new_events w2 w3) = MBOX_BMC_CTRL :: map slot_off (slots MBOX_NUM_DATA_REGS).
Proof.
  intros b src dst c1 c2 script w Hlen Hbytes Hsrc A1 A2 Bdst w1 w2 w3.
  assert (Bsrc : buffer_ok src MBOX_NUM_DATA_REGS w).
  { intros j Hj. rewrite (Hsrc j Hj). apply lookup_lt_is_Some. lia. }
  pose proof (write_ok src c1 w A1 Bsrc) as Ew.
  destruct (write_ok_facts src c1 w A1 Bsrc) as (Eo & Er).
  assert (R2 : recv_ready w2 = true) by apply recv_ready_peer_assert.
  assert (U2 : umem w2 = umem w) by (subst w2 w1; now rewrite Ew).
  assert (A2' : access_ok dst c2 w2 = true).
  { unfold access_ok in *. subst w2 w1. now rewrite Ew. }
  pose proof (read_ok dst c2 script w2 _ A2' (wait_ready_now script w2 R2)) as Er'.
  specialize (Er' ltac:(intros j Hj; cbn [umem log]; rewrite U2; now apply Bdst)).
  subst w3. rewrite Er'. cbn [fst snd]. repeat split.
  - now rewrite Ew.
  - intros j Hj. cbn [umem patch regs log]. rewrite drain_mem_frame by exact Hj.
    change (regs w2) with (peer_assert (regs w1)).
    assert (Hj' : (j < 16)%nat) by (unfold MBOX_NUM_DATA_REGS in Hj; lia).
    rewrite reg_get_peer_assert_other by (now apply slot_off_not_ctrl).
    unfold w1. rewrite (Er j Hj), <- (Hsrc j Hj).
    destruct (Bsrc j Hj) as [x Hx]. unfold user_byte. rewrite Hx. cbn [default].
    f_equal. apply Z.mod_small.
    rewrite Forall_forall in Hbytes. apply (Hbytes x).
    rewrite (Hsrc j Hj) in Hx. eapply list_elem_of_lookup_2; eauto.
  - exact Eo.
  - erewrite new_events_app
      by (cbn [trace patch log]; rewrite <- app_assoc; reflexivity).
    cbn [app in_regs flat_map]. now rewrite in_regs_app, in_regs_drain, app_nil_r.
Qed.

(** ** The control operation *)

(** C6 (the code at the failing input): the ATN operation writes the low
    byte of its parameter, once, at offset MBOX_DATA_0 + 15 of the register
    window and returns 0; every other operation code returns -EINVAL and
    leaves the world as it is.  With the stride of four that read and write
    use, offset 15 is the offset of no data register: the last of the
    MBOX_NUM_REGS registers, register 15, is at 0x3c. *)
Theorem ioctl_atn_writes_offset_15 :
  forall cmd param w,
    mbox_host_ioctl cmd param w
    = (if cmd =? MBOX_HOST_IOCTL_ATN
       then (0, patch (hw_write (regs w) (MBOX_DATA_0 + 15) (param mod 256)) (umem w)
                      [EvOut (param mod 256) (MBOX_DATA_0 + 15)] w)
       else (- EINVAL, w))
    /\ (forall i, slot_off i <> MBOX_DATA_0 + 15)
    /\ slot_off (MBOX_NUM_REGS - 1) = 0x3c.
Proof.
  intros cmd param w. split; [|split].
  - unfold mbox_host_ioctl. destruct (cmd =? MBOX_HOST_IOCTL_ATN); reflexivity.
  - intros i. rewrite slot_off_4. unfold MBOX_DATA_0. lia.
  - reflexivity.
Qed.

(** ** Attach and the life of an instance *)

Lemma config_irq_sources pf w :
  irq_bound w = false ->
  irq_bound (snd (mbox_host_config_irq pf w))
  = negb (irq (snd (mbox_host_config_irq pf w)) =? 0)
  /\ timer_armed (snd (mbox_host_config_irq pf w)) = timer_armed w
  /\ expires (snd (mbox_host_config_irq pf w)) = expires w
  /\ jiffies (snd (mbox_host_config_irq pf w)) = jiffies w.
Proof.
  intros Hb. unfold mbox_host_config_irq. cbn [irq set_irq].
  destruct (of_irq pf =? 0) eqn:E.
  - cbn. rewrite E, Hb. auto.
  - destruct (request pf); cbn; rewrite ?E; auto.
Qed.

Lemma probe_attached pf w :
  fst (mbox_host_probe pf w) = 0 ->
  let w1 := snd (mbox_host_config_irq pf (kzalloc w)) in
  snd (mbox_host_probe pf w)
  = if negb (irq w1 =? 0) then w1
    else add_timer (set_timer (timer_armed w1)
                      (ulong (jiffies w1 + msecs_to_jiffies 10)) w1).
Proof.
  unfold mbox_host_probe.
  destruct (has_of_node pf); [|discriminate].
  destruct (kzalloc_ok pf); [|discriminate].
  destruct (has_mem_resource pf); [|discriminate].
  destruct (ioremap_ok pf); [|discriminate]. cbn [negb].
  destruct (Z.eqb_spec (misc_register_rc pf) 0) as [_|Hne]; cbn [negb].
  2:{ cbn. intros E. contradiction. }
  destruct (mbox_host_config_irq pf (kzalloc w)) as [rc w1]. cbn [snd].
  now destruct (irq w1 =? 0).
Qed.

Lemma probe_one_source pf w :
  fst (mbox_host_probe pf w) = 0 ->
  one_source (snd (mbox_host_probe pf w))
  /\ (timer_armed (snd (mbox_host_probe pf w)) = true ->
      expires (snd (mbox_host_probe pf w)) = ulong (jiffies w + msecs_to_jiffies 10)).
Proof.
  intros H. rewrite (probe_attached pf w H).
  destruct (config_irq_sources pf (kzalloc w) eq_refl) as (B & T & _ & J).
  set (w1 := snd (mbox_host_config_irq pf (kzalloc w))) in *.
  cbn in T, J. unfold one_source.
  destruct (irq w1 =? 0) eqn:E; cbn [negb] in *.
  - cbn. rewrite B, E, J. auto.
  - rewrite B, T, E. repeat split. discriminate.
Qed.

Lemma kept_sources w w' :
  kept w w' ->
  irq w' = irq w /\ irq_bound w' = irq_bound w /\ timer_armed w' = timer_armed w.
Proof. intros (_ & _ & I & B & T & _). auto. Qed.

Lemma read_sources buf count script w :
  let w' := snd (mbox_host_read buf count script w) in
  irq w' = irq w /\ irq_bound w' = irq_bound w /\ timer_armed w' = timer_armed w.
Proof.
  cbn zeta. destruct (access_ok buf count w) eqn:A.
  2:{ unfold mbox_host_read. rewrite A. cbn. auto. }
  destruct (wait_event_interruptible script w) as [[rc|] w1] eqn:W.
  2:{ unfold mbox_host_read. rewrite A, W. cbn [snd negb].
      eapply kept_sources, kept_wait, W. }
  pose proof (kept_sources _ _ (kept_wait _ _ _ _ W)) as K.
  destruct (wait_end _ _ _ _ W) as [(-> & _)|(-> & _)].
  2:{ unfold mbox_host_read. rewrite A, W. cbn [snd negb]. exact K. }
  destruct (first_fault (umem w1) buf MBOX_NUM_DATA_REGS) as [B|(k & Hk & B & Bad)].
  - rewrite (read_ok _ _ _ _ _ A W B). exact K.
  - rewrite (read_fault _ _ _ _ _ _ A W Hk B Bad). exact K.
Qed.

Lemma write_sources buf count w :
  let w' := snd (mbox_host_write buf count w) in
  irq w' = irq w /\ irq_bound w' = irq_bound w /\ timer_armed w' = timer_armed w.
Proof.
  cbn zeta. destruct (access_ok buf count w) eqn:A.
  2:{ unfold mbox_host_write. rewrite A. cbn. auto. }
  destruct (first_fault (umem w) buf MBOX_NUM_DATA_REGS) as [B|(k & Hk & B & Bad)].
  - rewrite (write_ok _ _ _ A B). cbn. auto.
  - rewrite (write_fault _ _ _ _ A Hk B Bad). cbn. auto.
Qed.

Lemma step_sources o w :
  irq (step w o) = irq w /\ irq_bound (step w o) = irq_bound w
  /\ timer_armed (step w o) = timer_armed w.
Proof.
  destruct o as [buf count script|buf count|cmd param| |e]; cbn [step].
  - apply read_sources.
  - apply write_sources.
  - unfold mbox_host_ioctl. destruct (cmd =? MBOX_HOST_IOCTL_ATN); cbn; auto.
  - cbn. auto.
  - apply kept_sources, kept_env_step.
Qed.

Lemma run_one_source ops : forall w, one_source w -> one_source (run ops w).
Proof.
  induction ops as [|o ops IH]; intros w H; [exact H|].
  cbn. apply IH. destruct (step_sources o w) as (I & B & T).
  unfold one_source in *. now rewrite I, B, T.
Qed.

Lemma timer_tick w :
  timer_armed w = true ->
  env_step EnvTimer w
  = (true,
     mkWorld (regs w) (umem w) (addr_limit w) (sigpend w) (irq w) (irq_bound w)
             true (ulong (expires w + msecs_to_jiffies 500)) (jiffies w)
             (trace w ++ [EvWake; EvAddTimer (ulong (expires w + msecs_to_jiffies 500))])).
Proof. intros T. cbn [env_step]. rewrite T, poll_timer_eq. reflexivity. Qed.

Lemma ticks_S k w : ticks (S k) w = snd (env_step EnvTimer (ticks k w)).
Proof. reflexivity. Qed.

Lemma ticks_expires k : forall w e0,
  timer_armed w = true -> expires w = ulong e0 ->
  timer_armed (ticks k w) = true
  /\ expires (ticks k w) = ulong (e0 + Z.of_nat k * msecs_to_jiffies 500).
Proof.
  induction k as [|k IH]; intros w e0 T E.
  - cbn. rewrite Z.add_0_r. auto.
  - destruct (IH w e0 T E) as [T' E'].
    rewrite ticks_S, (timer_tick _ T'). cbn [snd timer_armed expires].
    split; [reflexivity|]. rewrite E'. unfold ulong.
    rewrite Zplus_mod_idemp_l. f_equal. lia.
Qed.

(** C7: after a successful attach exactly one notification source is
    active, and it stays so whatever the instance does afterwards: the poll
    timer is pending if and only if no interrupt handler was bound.  With
    the timer, the first expiry is set 10 ms after attach, every expiry
    re-arms the timer 500 ms after the previous expiry, and every expiry
    wakes the waiters whatever the registers hold. *)
Theorem one_source_and_timer_period :
  forall pf w,
    fst (mbox_host_probe pf w) = 0 ->
    let w' := snd (mbox_host_probe pf w) in
    (timer_armed w' = negb (irq_bound w') /\ irq_bound w' = negb (irq w' =? 0))
    /\ (forall ops,
          timer_armed (run ops w') = negb (irq_bound (run ops w'))
          /\ irq_bound (run ops w') = irq_bound w')
    /\ (timer_armed w' = true ->
        expires w' = ulong (jiffies w + msecs_to_jiffies 10))
    /\ (forall k : nat,
          timer_armed w' = true ->
          timer_armed (ticks k w') = true
          /\ expires (ticks k w')
             = ulong (jiffies w + msecs_to_jiffies 10
                      + Z.of_nat k * msecs_to_jiffies 500))
    /\ (forall w0,
          timer_armed w0 = true ->
          env_step EnvTimer w0
          = (true,
             mkWorld (regs w0) (umem w0) (addr_limit w0) (sigpend w0) (irq w0)
                     (irq_bound w0) true
                     (ulong (expires w0 + msecs_to_jiffies 500)) (jiffies w0)
                     (trace w0 ++ [EvWake;
                                   EvAddTimer (ulong (expires w0 + msecs_to_jiffies 500))]))).
Proof.
  intros pf w H w'. destruct (probe_one_source pf w H) as [O E]. fold w' in O, E.
  split; [exact O|]. split; [|split; [exact E|split]].
  - intros ops. split; [apply (run_one_source ops w' O)|].
    clear O E. generalize w'. induction ops as [|o ops IH]; intros w0; [reflexivity|].
    cbn. rewrite IH. apply step_sources.
  - intros k T. apply ticks_expires; auto.
  - exact timer_tick.
Qed.


(** ** Beyond the frame: wakes, deliveries and the life cycle *)

Lemma env_step_no_delivery e w :
  is_delivery e = false -> recv_ready w = false ->
  regs (snd (env_step e w)) = regs w.
Proof.
  intros He R. destruct e; try discriminate; cbn [env_step].
  - destruct (irq_bound w); [|reflexivity].
    rewrite mbox_host_irq_eq, R. reflexivity.
  - destruct (timer_armed w); [|reflexivity]. cbn [snd]. now rewrite poll_timer_eq.
  - reflexivity.
Qed.

Lemma sleep_on_no_delivery script : forall w o w1,
  forallb (fun e => negb (is_delivery e)) script = true ->
  recv_ready w = false ->
  sleep_on script w = (o, w1) ->
  o <> Ret 0 /\ regs w1 = regs w.
Proof.
  induction script as [|e rest IH]; intros w o w1 Hs R H; cbn [sleep_on] in H.
  - inversion H; subst. split; [discriminate | reflexivity].
  - cbn [forallb] in Hs. apply andb_prop in Hs as [He Hs].
    apply negb_true_iff in He.
    pose proof (env_step_no_delivery e w He R) as Er.
    destruct (env_step e w) as [woke w']. cbn [snd] in Er.
    assert (R' : recv_ready w' = false) by (unfold recv_ready in *; now rewrite Er).
    destruct woke.
    + rewrite recv_pending_eq, R' in H. cbn [sigpend log] in H.
      destruct (sigpend w').
      * inversion H; subst. split; [discriminate | exact Er].
      * apply IH in H; [|exact Hs|exact R'].
        destruct H as [Ho Hr]. split; [exact Ho | now rewrite Hr].
    + apply IH in H; [|exact Hs|exact R'].
      destruct H as [Ho Hr]. split; [exact Ho | now rewrite Hr].
Qed.

Lemma wait_no_delivery script w o w1 :
  forallb (fun e => negb (is_delivery e)) script = true ->
  recv_ready w = false ->
  wait_event_interruptible script w = (o, w1) ->
  o <> Ret 0 /\ regs w1 = regs w.
Proof.
  intros Hs R. unfold wait_event_interruptible. rewrite !recv_pending_eq, R.
  set (wa := log (EvIn MBOX_BMC_CTRL (reg_get (regs w) MBOX_BMC_CTRL)) w).
  assert (Ra : recv_ready wa = false) by exact R. rewrite Ra.
  cbn [sigpend log]. destruct (sigpend wa).
  - intros H; inversion H; subst. split; [discriminate | reflexivity].
  - intros H. now apply sleep_on_no_delivery in H.
Qed.

Lemma sleep_on_stays_asleep script : forall w,
  forallb (fun e => negb (is_delivery e) && negb (is_signal e)) script = true ->
  recv_ready w = false -> sigpend w = false ->
  fst (sleep_on script w) = Blocked.
Proof.
  induction script as [|e rest IH]; intros w Hs R S; cbn [sleep_on]; [reflexivity|].
  cbn [forallb] in Hs. apply andb_prop in Hs as [He Hs].
  apply andb_prop in He as [Hd Hg]. apply negb_true_iff in Hd, Hg.
  pose proof (env_step_no_delivery e w Hd R) as Er.
  assert (Es : sigpend (snd (env_step e w)) = sigpend w).
  { destruct e; try discriminate; cbn [env_step].
    - destruct (irq_bound w); [|reflexivity].
      rewrite mbox_host_irq_eq. now destruct (recv_ready w).
    - destruct (timer_armed w); [|reflexivity]. cbn [snd]. now rewrite poll_timer_eq. }
  destruct (env_step e w) as [woke w']. cbn [snd] in Er, Es.
  assert (R' : recv_ready w' = false) by (unfold recv_ready in *; now rewrite Er).
  destruct woke.
  - rewrite recv_pending_eq, R'. cbn [sigpend log].
    replace (sigpend w') with false by congruence.
    apply IH; [exact Hs | exact R' | cbn; congruence].
  - apply IH; [exact Hs | exact R' | congruence].
Qed.

Lemma read_fails_without_delivery buf count script w :
  recv_ready w = false ->
  forallb (fun e => negb (is_delivery e)) script = true ->
  forall rc, fst (mbox_host_read buf count script w) = Ret rc -> rc < 0.
Proof.
  intros R Hs. unfold mbox_host_read.
  destruct (access_ok buf count w) eqn:A; cbn [negb].
  2:{ cbn. intros rc E. inversion E. unfold EFAULT. lia. }
  destruct (wait_event_interruptible script w) as [o w1] eqn:W.
  destruct (wait_no_delivery _ _ _ _ Hs R W) as [Ho Hr].
  destruct o as [rc'|]; [|discriminate].
  destruct (wait_end _ _ _ _ W) as [(-> & _)|(-> & _)]; [congruence|].
  cbn. intros rc E. inversion E. unfold ERESTARTSYS. lia.
Qed.

(** X4: without a delivery by the peer, read never hands out data.  When
    RECV is not set and the peer does not raise it, whatever wakes the
    reader (timer ticks, interrupts, signals), read does not return a frame:
    it is still asleep or returns a negative error, and the registers and
    the user memory are as they were.  When in addition no signal is
    pending or arrives, read with a buffer in range is still asleep after
    any number of wakes. *)
Theorem read_never_returns_without_delivery :
  forall buf count script w,
    recv_ready w = false ->
    forallb (fun e => negb (is_delivery e)) script = true ->
    (forall rc, fst (mbox_host_read buf count script w) = Ret rc -> rc < 0)
    /\ regs (snd (mbox_host_read buf count script w)) = regs w
    /\ umem (snd (mbox_host_read buf count script w)) = umem w
    /\ (access_ok buf count w = true -> sigpend w = false ->
        forallb (fun e => negb (is_signal e)) script = true ->
        fst (mbox_host_read buf count script w) = Blocked).
Proof.
  intros buf count script w R Hs.
  split; [now apply read_fails_without_delivery|].
  unfold mbox_host_read.
  destruct (access_ok buf count w) eqn:A; cbn [negb].
  2:{ cbn [fst snd]. split; [reflexivity|]. split; [reflexivity | discriminate]. }
  destruct (wait_event_interruptible script w) as [o w1] eqn:W.
  destruct (wait_no_delivery _ _ _ _ Hs R W) as [Ho Hr].
  destruct (kept_wait _ _ _ _ W) as (U & _).
  split; [|split].
  - destruct o as [rc'|]; [|exact Hr].
    destruct (wait_end _ _ _ _ W) as [(-> & _)|(-> & _)]; [congruence | exact Hr].
  - destruct o as [rc'|]; [|exact U].
    destruct (wait_end _ _ _ _ W) as [(-> & _)|(-> & _)]; [congruence | exact U].
  - intros _ S Hg.
    assert (B : fst (wait_event_interruptible script w) = Blocked).
    { unfold wait_event_interruptible. rewrite !recv_pending_eq, R.
      set (wa := log (EvIn MBOX_BMC_CTRL (reg_get (regs w) MBOX_BMC_CTRL)) w).
      assert (Ra : recv_ready wa = false) by exact R. rewrite Ra.
      replace (sigpend (log (EvIn MBOX_BMC_CTRL (reg_get (regs wa) MBOX_BMC_CTRL)) wa))
        with false by (symmetry; exact S).
      apply sleep_on_stays_asleep.
      - clear -Hs Hg. induction script as [|e rest IH]; [reflexivity|].
        cbn [forallb] in *. apply andb_prop in Hs as [-> Hs].
        apply andb_prop in Hg as [-> Hg]. cbn. now apply IH.
      - exact R.
      - exact S. }
    rewrite W in B. cbn in B. now subst o.
Qed.

Lemma sleep_on_wakes script : forall w,
  recv_ready w = true ->
  (irq_bound w = true /\ In EnvIrq script)
  \/ (timer_armed w = true /\ In EnvTimer script)
  \/ In EnvSignal script ->
  exists w1, sleep_on script w = (Ret 0, w1) /\ kept w w1.
Proof.
  induction script as [|e rest IH]; intros w R H.
  - destruct H as [[_ []]|[[_ []]|[]]].
  - cbn [sleep_on].
    pose proof (kept_env_step e w) as K.
    destruct (env_step e w) as [woke w'] eqn:E. cbn [snd] in K.
    assert (R' : recv_ready w' = true) by (apply K, R).
    destruct woke.
    + rewrite recv_pending_eq, R'. eexists. split; [reflexivity|].
      eapply kept_trans; [exact K|].
      pose proof (kept_recv_pending w') as K'. now rewrite recv_pending_eq in K'.
    + destruct (kept_sources _ _ K) as (_ & B & T).
      destruct (IH w' R') as (w1 & E1 & K1).
      * rewrite B, T.
        destruct e; cbn [env_step] in E.
        -- destruct H as [[Hb [?|I]]|[[Ht [?|I]]|[?|I]]]; try discriminate; auto.
        -- destruct (irq_bound w) eqn:Bw.
           ++ rewrite mbox_host_irq_eq, R in E. discriminate.
           ++ destruct H as [[Hb _]|[[Ht [?|I]]|[?|I]]]; try discriminate; auto.
        -- destruct (timer_armed w) eqn:Tw; [discriminate|].
           destruct H as [[Hb [?|I]]|[[Ht _]|[?|I]]]; try discriminate; auto.
        -- discriminate.
      * exists w1. split; [exact E1 | eapply kept_trans; eauto].
Qed.

Lemma sleep_on_prefix pre rest : forall w,
  forallb (fun e => negb (is_signal e)) pre = true ->
  sigpend w = false ->
  (exists w1, sleep_on (pre ++ rest) w = (Ret 0, w1) /\ kept w w1)
  \/ (exists w', sleep_on (pre ++ rest) w = sleep_on rest w'
                 /\ kept w w' /\ sigpend w' = false).
Proof.
  induction pre as [|e pre IH]; intros w Hs S.
  - right. exists w. split; [reflexivity|]. split; [apply kept_refl | exact S].
  - cbn [forallb] in Hs. apply andb_prop in Hs as [He Hs]. apply negb_true_iff in He.
    cbn [app sleep_on].
    pose proof (kept_env_step e w) as K.
    assert (Es : sigpend (snd (env_step e w)) = false).
    { destruct e; try discriminate; cbn [env_step].
      - exact S.
      - destruct (irq_bound w); [|exact S].
        rewrite mbox_host_irq_eq. now destruct (recv_ready w).
      - destruct (timer_armed w); [|exact S]. cbn [snd]. now rewrite poll_timer_eq. }
    destruct (env_step e w) as [woke w']. cbn [snd] in K, Es.
    assert (Go : forall w2, kept w w2 -> sigpend w2 = false ->
              (exists w1, sleep_on (pre ++ rest) w2 = (Ret 0, w1) /\ kept w w1)
              \/ (exists w'', sleep_on (pre ++ rest) w2 = sleep_on rest w''
                              /\ kept w w'' /\ sigpend w'' = false)).
    { intros w2 K2 S2. destruct (IH w2 Hs S2) as [(w1 & E & K1)|(w'' & E & K'' & S'')].
      - left. exists w1. split; [exact E | eapply kept_trans; eauto].
      - right. exists w''. split; [exact E|].
        split; [eapply kept_trans; eauto | exact S'']. }
    destruct woke; [|now apply Go].
    rewrite recv_pending_eq.
    pose proof (kept_recv_pending w') as K'. rewrite recv_pending_eq in K'. cbn [snd] in K'.
    destruct (recv_ready w').
    + left. eexists. split; [reflexivity | eapply kept_trans; eauto].
    + cbn [sigpend log]. rewrite Es. apply Go; [eapply kept_trans; eauto | exact Es].
Qed.

(** X5: no wake-up is lost.  A reader that went to sleep with RECV unset and
    no signal pending gets the frame as soon as the peer has raised RECV and
    the notification source of the instance (the interrupt when a handler is
    bound, the timer otherwise) has fired afterwards, whatever else happened
    before short of a signal. *)
Theorem read_returns_after_delivery_and_wake :
  forall buf count pre rest w,
    access_ok buf count w = true ->
    buffer_ok buf MBOX_NUM_DATA_REGS w ->
    one_source w ->
    sigpend w = false ->
    forallb (fun e => negb (is_signal e)) pre = true ->
    In (source_event w) rest ->
    fst (mbox_host_read buf count (pre ++ EnvPeerAssert :: rest) w)
    = Ret (Z.of_nat MBOX_NUM_DATA_REGS).
Proof.
  intros buf count pre rest w A B [O1 O2] S Hpre Hin.
  assert (W : exists w1, wait_event_interruptible (pre ++ EnvPeerAssert :: rest) w
                         = (Ret 0, w1)).
  { unfold wait_event_interruptible. rewrite !recv_pending_eq.
    destruct (recv_ready w) eqn:R; [eauto|].
    set (wa := log (EvIn MBOX_BMC_CTRL (reg_get (regs w) MBOX_BMC_CTRL)) w).
    assert (Ra : recv_ready wa = false) by exact R. rewrite Ra.
    set (wb := log (EvIn MBOX_BMC_CTRL (reg_get (regs wa) MBOX_BMC_CTRL)) wa).
    assert (Sb : sigpend wb = false) by exact S. rewrite Sb.
    destruct (sleep_on_prefix pre (EnvPeerAssert :: rest) wb Hpre Sb)
      as [(w1 & E & _)|(w' & E & K & S')]; [eauto|].
    rewrite E. cbn [sleep_on env_step].
    destruct (kept_sources _ _ K) as (_ & Bd & T). cbn in Bd, T.
    destruct (sleep_on_wakes rest (set_regs (peer_assert (regs w')) w')) as (w1 & E1 & _).
    - apply recv_ready_peer_assert.
    - cbn [irq_bound timer_armed set_regs]. rewrite Bd, T.
      unfold source_event in Hin. destruct (irq_bound w); [now left|].
      right; left. split; [now rewrite O1 | exact Hin].
    - eauto. }
  destruct W as [w1 W].
  erewrite read_ok; [reflexivity | exact A | exact W |].
  eapply buffer_ok_kept; [eapply kept_wait; exact W | exact B].
Qed.

Lemma read_success_inv buf count script w rc :
  fst (mbox_host_read buf count script w) = Ret rc -> 0 <= rc ->
  exists w1,
    access_ok buf count w = true
    /\ wait_event_interruptible script w = (Ret 0, w1)
    /\ buffer_ok buf MBOX_NUM_DATA_REGS w1.
Proof.
  intros Hfst Hrc.
  destruct (access_ok buf count w) eqn:A.
  2:{ unfold mbox_host_read in Hfst. rewrite A in Hfst. cbn in Hfst.
      inversion Hfst. unfold EFAULT in *. lia. }
  destruct (wait_event_interruptible script w) as [[rc'|] w1] eqn:W.
  2:{ unfold mbox_host_read in Hfst. rewrite A, W in Hfst. discriminate. }
  destruct (wait_end _ _ _ _ W) as [(-> & _)|(-> & _)].
  2:{ unfold mbox_host_read in Hfst. rewrite A, W in Hfst. cbn in Hfst.
      inversion Hfst. unfold ERESTARTSYS in *. lia. }
  destruct (first_fault (umem w1) buf MBOX_NUM_DATA_REGS) as [B|(k & Hk & B & Bad)].
  - exists w1. auto.
  - rewrite (read_fault _ _ _ _ _ _ A W Hk B Bad) in Hfst. cbn in Hfst.
    inversion Hfst. unfold EFAULT in *. lia.
Qed.

(** X6: a message is handed out once.  After a read that returned a frame,
    RECV reads unset and poll reports nothing to read; until the peer raises
    RECV again no read returns a frame, whatever wakes it. *)
Theorem read_consumes_the_message :
  forall buf count script w rc,
    fst (mbox_host_read buf count script w) = Ret rc ->
    0 <= rc ->
    let w' := snd (mbox_host_read buf count script w) in
    recv_ready w' = false
    /\ fst (mbox_host_poll w') = 0
    /\ (forall buf' count' script' rc',
          forallb (fun e => negb (is_delivery e)) script' = true ->
          fst (mbox_host_read buf' count' script' w') = Ret rc' -> rc' < 0).
Proof.
  intros buf count script w rc Hfst Hrc w'.
  destruct (read_success_inv _ _ _ _ _ Hfst Hrc) as (w1 & A & W & B).
  assert (R : recv_ready w' = false).
  { subst w'. rewrite (read_ok _ _ _ _ _ A W B). cbn [snd].
    unfold recv_ready. cbn [regs patch]. now rewrite reg_get_hw_write_ctrl. }
  split; [exact R|]. split.
  - unfold mbox_host_poll, poll_wait, mbox_inb, ioread8. cbn.
    unfold recv_ready in R. now rewrite R.
  - intros buf' count' script' rc' Hs H.
    now apply (read_fails_without_delivery buf' count' script' w' R Hs rc').
Qed.

(** X7: what poll announces, read delivers.  When poll reports POLLIN, a
    read with a valid buffer issued next returns the frame at once: it
    consumes nothing of what happens around it, and the bytes it stores are
    those the data registers held when poll looked. *)
Theorem poll_in_then_read_returns_frame :
  forall buf count script w,
    fst (mbox_host_poll w) <> 0 ->
    access_ok buf count w = true ->
    buffer_ok buf MBOX_NUM_DATA_REGS w ->
    let r := mbox_host_read buf count script (snd (mbox_host_poll w)) in
    fst r = Ret (Z.of_nat MBOX_NUM_DATA_REGS)
    /\ r = mbox_host_read buf count [] (snd (mbox_host_poll w))
    /\ (forall j : nat, (j < MBOX_NUM_DATA_REGS)%nat ->
          umem (snd r) !! (buf + Z.of_nat j)
          = Some (reg_get (regs w) (slot_off (Z.of_nat j)))).
Proof.
  intros buf count script w P A B r.
  assert (R : recv_ready w = true).
  { unfold mbox_host_poll, poll_wait, mbox_inb, ioread8 in P. cbn in P.
    unfold recv_ready. destruct (recv_set _); [reflexivity | now elim P]. }
  set (wp := snd (mbox_host_poll w)) in *.
  assert (Rp : recv_ready wp = true) by exact R.
  assert (Ap : access_ok buf count wp = true) by exact A.
  assert (Bp : buffer_ok buf MBOX_NUM_DATA_REGS
                 (log (EvIn MBOX_BMC_CTRL (reg_get (regs wp) MBOX_BMC_CTRL)) wp)).
  { intros j Hj. cbn. now apply B. }
  pose proof (read_ok buf count script wp _ Ap (wait_ready_now script wp Rp) Bp) as E.
  pose proof (read_ok buf count [] wp _ Ap (wait_ready_now [] wp Rp) Bp) as E0.
  subst r. rewrite E, E0. cbn [fst snd]. repeat split.
  intros j Hj. cbn [umem patch]. now rewrite drain_mem_frame.
Qed.

Lemma ctrl_mask_idem old :
  ctrl_after_write (ctrl_after_write old (MBOX_CTRL_MASK mod 256)) (MBOX_CTRL_MASK mod 256)
  = ctrl_after_write old (MBOX_CTRL_MASK mod 256).
Proof.
  unfold ctrl_after_write, MBOX_CTRL_RECV.
  change (Z.testbit (MBOX_CTRL_MASK mod 256) 7) with false. cbv iota.
  change (Z.land (MBOX_CTRL_MASK mod 256) 127) with 2.
  now rewrite land_recv_lor.
Qed.

(** X8: the interrupt handler touches the control register and nothing
    else: every other register and the user memory are as before, and a
    second run of the handler leaves the registers as the first one did. *)
Theorem irq_touches_control_register_only :
  forall w,
    (forall off, off <> MBOX_BMC_CTRL ->
       reg_get (regs (snd (mbox_host_irq w))) off = reg_get (regs w) off)
    /\ umem (snd (mbox_host_irq w)) = umem w
    /\ regs (snd (mbox_host_irq (snd (mbox_host_irq w)))) = regs (snd (mbox_host_irq w))
    /\ fst (mbox_host_irq (snd (mbox_host_irq w))) = fst (mbox_host_irq w).
Proof.
  intros w. pose proof (recv_ready_after_irq w) as RI.
  rewrite (mbox_host_irq_eq (snd (mbox_host_irq w))), RI.
  rewrite mbox_host_irq_eq in *.
  destruct (recv_ready w) eqn:R; cbn [fst snd regs umem patch] in *.
  - repeat split.
    + intros off Hoff. now apply reg_get_hw_write_ctrl_other.
    + unfold hw_write. destruct (decide (MBOX_BMC_CTRL = MBOX_BMC_CTRL)); [|congruence].
      rewrite insert_insert_eq. f_equal.
      unfold reg_get at 1. rewrite lookup_insert_eq. cbn [default].
      apply ctrl_mask_idem.
  - repeat split.
Qed.

(** X9: write never clears a pending RECV and stays within the payload
    slots and the control register: whether it succeeds, faults half way or
    is refused, RECV reads as before, every register other than the 14 data
    registers and the control register is untouched, and the user memory is
    unchanged. *)
Theorem write_keeps_recv_and_other_registers :
  forall buf count w,
    recv_ready (snd (mbox_host_write buf count w)) = recv_ready w
    /\ (forall off,
          off <> MBOX_BMC_CTRL ->
          (forall j : nat, (j < MBOX_NUM_DATA_REGS)%nat -> off <> slot_off (Z.of_nat j)) ->
          reg_get (regs (snd (mbox_host_write buf count w))) off = reg_get (regs w) off)
    /\ umem (snd (mbox_host_write buf count w)) = umem w.
Proof.
  intros buf count w.
  destruct (access_ok buf count w) eqn:A.
  2:{ unfold mbox_host_write. rewrite A. cbn. auto. }
  destruct (first_fault (umem w) buf MBOX_NUM_DATA_REGS) as [B|(k & Hk & B & Bad)].
  - rewrite (write_ok _ _ _ A B). cbn [snd regs umem patch]. repeat split.
    + unfold recv_ready. cbn [regs patch]. rewrite reg_get_hw_write_ctrl.
      change MBOX_CTRL_SEND with (MBOX_CTRL_SEND mod 256).
      rewrite recv_set_after_send. f_equal.
      apply fill_regs_ctrl. unfold MBOX_NUM_DATA_REGS. lia.
    + intros off Hc Hs. rewrite reg_get_hw_write_ctrl_other by exact Hc.
      unfold reg_get, slots. rewrite fill_regs_other; [reflexivity | |].
      * unfold MBOX_NUM_DATA_REGS. lia.
      * intros j Hj. apply Hs. lia.
  - rewrite (write_fault _ _ _ _ A Hk B Bad). cbn [snd regs umem patch].
    unfold MBOX_NUM_DATA_REGS in *. repeat split.
    + unfold recv_ready. cbn [regs patch]. f_equal. apply fill_regs_ctrl. lia.
    + intros off Hc Hs. unfold reg_get, slots. rewrite fill_regs_other; [reflexivity | lia |].
      intros j Hj. apply Hs. lia.
Qed.

(** ** Attach and detach, case by case *)

(** X1: probe on a platform whose register window is mapped.  It
    succeeds exactly when the device node, the allocation, the register
    resource and the registration succeed: a missing or refused interrupt
    never makes it fail.  A probe that fails returns the error of the first
    step that failed (-ENODEV without a device node, -ENOMEM without
    memory, -ENXIO without the register resource, else what misc_register
    returned) and leaves no trace: no register written, no handler, no
    timer. *)
Theorem probe_result_by_platform :
  forall pf w,
    ioremap_ok pf = true ->
    (fst (mbox_host_probe pf w) = 0 <->
     has_of_node pf = true /\ kzalloc_ok pf = true /\ has_mem_resource pf = true
     /\ misc_register_rc pf = 0)
    /\ (fst (mbox_host_probe pf w) <> 0 -> snd (mbox_host_probe pf w) = w)
    /\ (has_of_node pf = false -> fst (mbox_host_probe pf w) = - ENODEV)
    /\ (has_of_node pf = true -> kzalloc_ok pf = false ->
        fst (mbox_host_probe pf w) = - ENOMEM)
    /\ (has_of_node pf = true -> kzalloc_ok pf = true -> has_mem_resource pf = false ->
        fst (mbox_host_probe pf w) = - ENXIO)
    /\ (has_of_node pf = true -> kzalloc_ok pf = true -> has_mem_resource pf = true ->
        misc_register_rc pf <> 0 ->
        fst (mbox_host_probe pf w) = misc_register_rc pf).
Proof.
  intros pf w Hmap. unfold mbox_host_probe. rewrite Hmap.
  destruct (has_of_node pf), (kzalloc_ok pf), (has_mem_resource pf);
    cbn [negb fst snd];
    try (destruct (Z.eqb_spec (misc_register_rc pf) 0) as [E|E]; cbn [negb fst snd];
         [destruct (mbox_host_config_irq pf (kzalloc w)) as [rc w1];
          destruct (irq w1 =? 0); cbn [negb fst snd]|]);
    repeat split; intros;
    first [reflexivity | discriminate | congruence | tauto
          | exfalso; intuition congruence].
Qed.

Lemma config_irq_granted pf w :
  of_irq pf <> 0 -> request pf = IrqGranted ->
  mbox_host_config_irq pf w
  = (0,
     patch (hw_write (hw_write (hw_write (hw_write (hw_write (regs w)
              MBOX_INTERRUPT_0 0) MBOX_INTERRUPT_1 0) MBOX_STATUS_0 0xff)
              MBOX_STATUS_1 0xff) MBOX_BMC_CTRL MBOX_CTRL_RECV)
           (umem w)
           [EvOut 0 MBOX_INTERRUPT_0; EvOut 0 MBOX_INTERRUPT_1;
            EvOut 0xff MBOX_STATUS_0; EvOut 0xff MBOX_STATUS_1;
            EvOut MBOX_CTRL_RECV MBOX_BMC_CTRL]
           (set_irq (of_irq pf) true w)).
Proof.
  intros Hirq Hreq. unfold mbox_host_config_irq. cbn [irq set_irq].
  destruct (Z.eqb_spec (of_irq pf) 0) as [|_]; [contradiction|].
  rewrite Hreq. rewrite !mbox_outb_patch, !patch_patch.
  cbn [regs umem addr_limit sigpend irq irq_bound timer_armed expires jiffies
       trace patch set_irq app].
  change (0 mod 256) with 0. change (255 mod 256) with 255.
  change (MBOX_CTRL_RECV mod 256) with MBOX_CTRL_RECV.
  reflexivity.
Qed.

Lemma hw_write_plain r off v :
  off <> MBOX_BMC_CTRL -> off <> MBOX_STATUS_0 -> off <> MBOX_STATUS_1 ->
  hw_write r off v = <[off := v]> r.
Proof.
  intros Hc H0 H1. unfold hw_write.
  destruct (decide (off = MBOX_BMC_CTRL)); [contradiction|].
  destruct (decide (off = MBOX_STATUS_0 \/ off = MBOX_STATUS_1)); [tauto | reflexivity].
Qed.

Lemma hw_write_other r off v off' :
  off' <> off -> reg_get (hw_write r off v) off' = reg_get r off'.
Proof.
  intros Hne. unfold hw_write, reg_get.
  destruct (decide (off = MBOX_BMC_CTRL));
    [|destruct (decide (off = MBOX_STATUS_0 \/ off = MBOX_STATUS_1))];
    now rewrite lookup_insert_ne by congruence.
Qed.

Lemma config_irq_granted_regs r :
  let r' := hw_write (hw_write (hw_write (hw_write (hw_write r
              MBOX_INTERRUPT_0 0) MBOX_INTERRUPT_1 0) MBOX_STATUS_0 0xff)
              MBOX_STATUS_1 0xff) MBOX_BMC_CTRL MBOX_CTRL_RECV in
  recv_set (reg_get r' MBOX_BMC_CTRL) = false
  /\ reg_get r' MBOX_INTERRUPT_0 = 0
  /\ reg_get r' MBOX_INTERRUPT_1 = 0
  /\ (forall j : nat, (j < 16)%nat ->
        reg_get r' (slot_off (Z.of_nat j)) = reg_get r (slot_off (Z.of_nat j))).
Proof.
  cbn zeta. split; [|split; [|split]].
  - rewrite reg_get_hw_write_ctrl. reflexivity.
  - rewrite !(hw_write_other _ _ _ MBOX_INTERRUPT_0) by discriminate.
    rewrite hw_write_plain by discriminate.
    unfold reg_get. now rewrite lookup_insert_eq.
  - rewrite !(hw_write_other _ _ _ MBOX_INTERRUPT_1) by discriminate.
    rewrite hw_write_plain by discriminate.
    unfold reg_get. now rewrite lookup_insert_eq.
  - intros j Hj.
    rewrite !hw_write_other; [reflexivity|..]; rewrite slot_off_4;
      unfold MBOX_BMC_CTRL, MBOX_STATUS_0, MBOX_STATUS_1,
             MBOX_INTERRUPT_0, MBOX_INTERRUPT_1; lia.
Qed.

(** X2: config_irq case by case.  Without an interrupt in the device tree
    it returns -ENODEV; when the request for the line is refused it returns
    the (negative) error of the request and sets irq back to 0; in both
    cases no register is written and no handler is bound.  When the line is
    granted it returns 0 with the handler bound and has written, in this
    order, 0 to both interrupt-enable registers, 0xff to both status
    registers and RECV to the control register: afterwards RECV reads
    unset, the interrupt-enable registers read 0 and the data registers are
    untouched. *)
Theorem config_irq_by_case :
  forall pf w,
    (of_irq pf = 0 ->
     mbox_host_config_irq pf w = (- ENODEV, set_irq 0 (irq_bound w) w))
    /\ (forall e, of_irq pf <> 0 -> request pf = IrqRefused e ->
          mbox_host_config_irq pf w = (- Z.pos e, set_irq 0 false w))
    /\ (of_irq pf <> 0 -> request pf = IrqGranted ->
        let w' := snd (mbox_host_config_irq pf w) in
        fst (mbox_host_config_irq pf w) = 0
        /\ irq w' = of_irq pf /\ irq_bound w' = true
        /\ new_events w w'
           = [EvOut 0 MBOX_INTERRUPT_0; EvOut 0 MBOX_INTERRUPT_1;
              EvOut 0xff MBOX_STATUS_0; EvOut 0xff MBOX_STATUS_1;
              EvOut MBOX_CTRL_RECV MBOX_BMC_CTRL]
        /\ recv_ready w' = false
        /\ reg_get (regs w') MBOX_INTERRUPT_0 = 0
        /\ reg_get (regs w') MBOX_INTERRUPT_1 = 0
        /\ (forall j : nat, (j < 16)%nat ->
              reg_get (regs w') (slot_off (Z.of_nat j))
              = reg_get (regs w) (slot_off (Z.of_nat j)))).
Proof.
  intros pf w. split; [|split].
  - intros E. unfold mbox_host_config_irq. cbn [irq set_irq]. rewrite E. reflexivity.
  - intros e Hirq Hreq. unfold mbox_host_config_irq. cbn [irq set_irq].
    destruct (Z.eqb_spec (of_irq pf) 0) as [|_]; [contradiction|].
    now rewrite Hreq.
  - intros Hirq Hreq. rewrite (config_irq_granted pf w Hirq Hreq).
    cbn [fst snd irq irq_bound regs patch set_irq].
    destruct (config_irq_granted_regs (regs w)) as (C & I0 & I1 & D).
    split; [reflexivity|]. split; [reflexivity|]. split; [reflexivity|].
    split; [now erewrite new_events_app by reflexivity|].
    auto.
Qed.

Lemma probe_timer_mode pf w :
  fst (mbox_host_probe pf w) = 0 ->
  (of_irq pf = 0 \/ exists e, request pf = IrqRefused e) ->
  snd (mbox_host_probe pf w)
  = mkWorld (regs w) (umem w) (addr_limit w) (sigpend w) 0 false true
            (ulong (jiffies w + msecs_to_jiffies 10)) (jiffies w)
            (trace w ++ [EvAddTimer (ulong (jiffies w + msecs_to_jiffies 10))]).
Proof.
  intros H Hno. rewrite (probe_attached pf w H). cbn zeta.
  assert (E : mbox_host_config_irq pf (kzalloc w)
              = (fst (mbox_host_config_irq pf (kzalloc w)),
                 set_irq 0 false (kzalloc w))).
  { unfold mbox_host_config_irq. cbn [irq set_irq kzalloc irq_bound set_timer].
    destruct (Z.eqb_spec (of_irq pf) 0) as [E0|E0]; [now rewrite E0|].
    destruct Hno as [?|[e He]]; [contradiction|]. now rewrite He. }
  rewrite E. cbn. reflexivity.
Qed.

(** X3: a message that is pending when the driver attaches.  Without an
    interrupt (none in the device tree, or the request refused) attach
    writes no register: RECV stays set, and the first read with a valid
    buffer returns the frame the data registers held before attach.  With
    an interrupt, attach clears RECV: the message is gone before any read. *)
Theorem attach_and_a_pending_message :
  forall pf w,
    fst (mbox_host_probe pf w) = 0 ->
    recv_ready w = true ->
    ((of_irq pf = 0 \/ exists e, request pf = IrqRefused e) ->
     regs (snd (mbox_host_probe pf w)) = regs w
     /\ forall buf count script,
          access_ok buf count w = true ->
          buffer_ok buf MBOX_NUM_DATA_REGS w ->
          fst (mbox_host_read buf count script (snd (mbox_host_probe pf w)))
          = Ret (Z.of_nat MBOX_NUM_DATA_REGS)
          /\ forall j : nat, (j < MBOX_NUM_DATA_REGS)%nat ->
               umem (snd (mbox_host_read buf count script (snd (mbox_host_probe pf w))))
                 !! (buf + Z.of_nat j)
               = Some (reg_get (regs w) (slot_off (Z.of_nat j))))
    /\ (of_irq pf <> 0 -> request pf = IrqGranted ->
        recv_ready (snd (mbox_host_probe pf w)) = false).
Proof.
  intros pf w H R. split.
  - intros Hno. rewrite (probe_timer_mode pf w H Hno). split; [reflexivity|].
    intros buf count script A B.
    set (wp := mkWorld _ _ _ _ _ _ _ _ _ _).
    assert (Rp : recv_ready wp = true) by exact R.
    assert (Ap : access_ok buf count wp = true) by exact A.
    assert (Bp : buffer_ok buf MBOX_NUM_DATA_REGS
                   (log (EvIn MBOX_BMC_CTRL (reg_get (regs wp) MBOX_BMC_CTRL)) wp)).
    { intros j Hj. cbn. now apply B. }
    rewrite (read_ok buf count script wp _ Ap (wait_ready_now script wp Rp) Bp).
    cbn [fst snd]. split; [reflexivity|].
    intros j Hj. cbn [umem patch]. now rewrite drain_mem_frame.
  - intros Hirq Hreq. rewrite (probe_attached pf w H). cbn zeta.
    rewrite (config_irq_granted pf (kzalloc w) Hirq Hreq). cbn [snd irq patch set_irq].
    destruct (Z.eqb_spec (of_irq pf) 0) as [|_]; [contradiction|]. cbn [negb].
    unfold recv_ready. cbn [regs patch]. now rewrite reg_get_hw_write_ctrl.
Qed.

Lemma ticks_unarmed k w : timer_armed w = false -> ticks k w = w.
Proof.
  intros T. induction k as [|k IH]; [reflexivity|].
  rewrite ticks_S, IH. cbn [env_step]. now rewrite T.
Qed.

(** X10: detach stops the poll timer.  For an instance that probe attached,
    whatever it did since, remove returns 0 and writes no register; after
    it the timer is not pending, so that no later expiry wakes anyone or
    re-arms it. *)
Theorem remove_stops_the_timer :
  forall pf w ops,
    fst (mbox_host_probe pf w) = 0 ->
    let wl := run ops (snd (mbox_host_probe pf w)) in
    let w2 := snd (mbox_host_remove wl) in
    fst (mbox_host_remove wl) = 0
    /\ timer_armed w2 = false
    /\ env_step EnvTimer w2 = (false, w2)
    /\ (forall k, ticks k w2 = w2)
    /\ regs w2 = regs wl /\ trace w2 = trace wl.
Proof.
  intros pf w ops H wl w2.
  destruct (probe_one_source pf w H) as [O _].
  pose proof (run_one_source ops _ O) as [O1 O2]. fold wl in O1, O2.
  assert (T : timer_armed w2 = false).
  { subst w2. unfold mbox_host_remove. cbn [snd].
    destruct (irq wl =? 0); [reflexivity|]. rewrite O1, O2. reflexivity. }
  split; [reflexivity|]. split; [exact T|]. split; [|split; [|split]].
  - cbn [env_step]. now rewrite T.
  - intros k. now apply ticks_unarmed.
  - subst w2. unfold mbox_host_remove. cbn [snd]. now destruct (irq wl =? 0).
  - subst w2. unfold mbox_host_remove. cbn [snd]. now destruct (irq wl =? 0).
Qed.
End Driver.

(** ** The statements at concrete inputs *)

Lemma sample_dst_ok : buffer_ok 200 MBOX_NUM_DATA_REGS w_idle.
Proof.
  intros j Hj. unfold MBOX_NUM_DATA_REGS in Hj.
  do 14 (destruct j as [|j]; [vm_compute; eauto|]). lia.
Qed.

Lemma sample_src_ok :
  forall j : nat, (j < MBOX_NUM_DATA_REGS)%nat ->
    umem w_idle !! (100 + Z.of_nat j) = sample_frame !! j.
Proof.
  intros j Hj. unfold MBOX_NUM_DATA_REGS in Hj.
  do 14 (destruct j as [|j]; [vm_compute; reflexivity|]). lia.
Qed.

Lemma sample_frame_bytes : Forall (fun x => 0 <= x < 256) sample_frame.
Proof. unfold sample_frame. repeat constructor; lia. Qed.

Lemma irq_masks_and_only_read_clears_recv_witness :
  is_read (RunOp (OpRead 200 14 [])) = true
  /\ fst (exec sample_atn jiffies_at_100hz sample_bits
             (RunOp (OpRead 200 14 [])) w_ready) = Ret 14.
Proof.
  apply (proj2 (proj2 (proj2 (proj2
           (irq_masks_and_only_read_clears_recv
              sample_atn jiffies_at_100hz sample_bits))))
           (OpRead 200 14 []) w_ready
           (EvOut MBOX_CTRL_RECV MBOX_BMC_CTRL)).
  - vm_compute. tauto.
  - reflexivity.
Defined.

Lemma read_waits_drains_then_acks_witness :
  fst (mbox_host_read jiffies_at_100hz sample_bits 200 14 [] w_ready)
  = Ret (Z.of_nat MBOX_NUM_DATA_REGS).
Proof.
  apply (read_waits_drains_then_acks jiffies_at_100hz sample_bits 200 14 [] w_ready).
  - reflexivity.
  - exact sample_dst_ok.
  - reflexivity.
Defined.



Lemma write_deliver_read_round_trip_witness :
  fst (mbox_host_read jiffies_at_100hz sample_bits 200 14 []
         (snd (env_step jiffies_at_100hz sample_bits EnvPeerAssert
                 (snd (mbox_host_write 100 14 w_idle)))))
  = Ret (Z.of_nat MBOX_NUM_DATA_REGS).
Proof.
  apply (write_deliver_read_round_trip jiffies_at_100hz sample_bits
           sample_frame 100 200 14 14 [] w_idle).
  - reflexivity.
  - exact sample_frame_bytes.
  - exact sample_src_ok.
  - reflexivity.
  - reflexivity.
  - exact sample_dst_ok.
Defined.

Lemma read_interrupted_leaves_hardware_alone_witness :
  fst (mbox_host_read jiffies_at_100hz sample_bits 200 14 [EnvSignal] w_idle)
  = Ret (- ERESTARTSYS).
Proof.
  rewrite (proj1 (read_interrupted_leaves_hardware_alone
                    jiffies_at_100hz sample_bits 200 14 [EnvSignal] w_idle
                    (- ERESTARTSYS)
                    (snd (wait_event_interruptible jiffies_at_100hz sample_bits
                            [EnvSignal] w_idle))
                    eq_refl eq_refl ltac:(discriminate))).
  reflexivity.
Defined.

Lemma ioctl_atn_writes_offset_15_witness : slot_off 3 <> MBOX_DATA_0 + 15.
Proof. apply (ioctl_atn_writes_offset_15 sample_atn sample_atn 0x5a w_idle). Defined.

Lemma one_source_and_timer_period_witness :
  timer_armed (snd (mbox_host_probe jiffies_at_100hz sample_bits pf_noirq w_idle)) = true
  /\ irq_bound (snd (mbox_host_probe jiffies_at_100hz sample_bits pf_noirq w_idle)) = false
  /\ expires (snd (mbox_host_probe jiffies_at_100hz sample_bits pf_noirq w_idle))
     = 1001.
Proof.
  pose proof (one_source_and_timer_period sample_atn jiffies_at_100hz sample_bits
                pf_noirq w_idle eq_refl) as (_ & _ & E & _).
  split; [reflexivity|]. split; [reflexivity|].
  rewrite E; reflexivity.
Defined.

Lemma poll_registers_then_reads_recv_witness : fst (mbox_host_poll w_ready) <> 0.
Proof.
  apply (proj2 (proj2 (proj2 (proj2 (poll_registers_then_reads_recv w_ready))))).
  reflexivity.
Defined.

Lemma read_copies_frame_whatever_count_witness :
  length (put_addrs (new_events w_ready
            (snd (mbox_host_read jiffies_at_100hz sample_bits 200 3 [] w_ready))))
  = MBOX_NUM_DATA_REGS.
Proof.
  apply (read_copies_frame_whatever_count jiffies_at_100hz sample_bits
           200 3 [] w_ready 14).
  - reflexivity.
  - lia.
Defined.

Lemma read_fault_keeps_message_and_partial_copy_witness :
  fst (mbox_host_read jiffies_at_100hz sample_bits 200 14 [] w_short) = Ret (- EFAULT)
  /\ recv_ready (snd (mbox_host_read jiffies_at_100hz sample_bits 200 14 [] w_short))
     = true.
Proof.
  pose proof (read_fault_keeps_message_and_partial_copy
                jiffies_at_100hz sample_bits 200 14 [] w_short
                (snd (wait_event_interruptible jiffies_at_100hz sample_bits [] w_short))
                5%nat eq_refl eq_refl) as H.
  destruct H as (F & _ & R & _).
  - unfold MBOX_NUM_DATA_REGS. lia.
  - intros j Hj. do 5 (destruct j as [|j]; [vm_compute; eauto|]). lia.
  - reflexivity.
  - split; [exact F | exact R].
Defined.

(** ** The model at work *)

(** A reader that finds RECV unset sleeps; the peer raises RECV, the
    interrupt handler masks and wakes, the reader drains the frame and
    clears RECV. *)
Example read_woken_by_irq :
  let r := mbox_host_read jiffies_at_100hz sample_bits 200 14
             [EnvPeerAssert; EnvIrq] w_bound in
  fst r = Ret 14
  /\ out_regs (trace (snd r)) = [MBOX_BMC_CTRL; MBOX_BMC_CTRL]
  /\ List.filter is_out (trace (snd r))
     = [EvOut MBOX_CTRL_MASK MBOX_BMC_CTRL; EvOut MBOX_CTRL_RECV MBOX_BMC_CTRL]
  /\ recv_ready (snd r) = false.
Proof. vm_compute. intuition. Qed.

(** Without a wake the reader stays asleep although RECV is set. *)
Example read_needs_a_wake :
  fst (mbox_host_read jiffies_at_100hz sample_bits 200 14 [EnvPeerAssert] w_bound)
  = Blocked.
Proof. reflexivity. Qed.

(** With the poll timer, a tick without data lets the reader sleep on and
    the tick after the peer's delivery lets it through. *)
Example read_woken_by_timer :
  let w := snd (mbox_host_probe jiffies_at_100hz sample_bits pf_noirq w_idle) in
  fst (mbox_host_read jiffies_at_100hz sample_bits 200 14
         [EnvTimer; EnvPeerAssert; EnvTimer] w) = Ret 14
  /\ fst (mbox_host_read jiffies_at_100hz sample_bits 200 14 [EnvTimer; EnvTimer] w)
     = Blocked.
Proof. vm_compute. intuition. Qed.

(** The readiness query around one message. *)
Example poll_around_a_message :
  let w1 := snd (env_step jiffies_at_100hz sample_bits EnvPeerAssert w_idle) in
  let w2 := snd (mbox_host_read jiffies_at_100hz sample_bits 200 14 [] w1) in
  fst (mbox_host_poll w_idle) = 0
  /\ fst (mbox_host_poll w1) = POLLIN
  /\ fst (mbox_host_poll w2) = 0.
Proof. vm_compute. intuition. Qed.

(** The attention byte lands at offset 15, inside the word of data
    register 3 and far from data register 15. *)
Example ioctl_atn_lands_at_15 :
  let w := snd (mbox_host_ioctl sample_atn sample_atn 0x5a w_idle) in
  fst (mbox_host_ioctl sample_atn sample_atn 0x5a w_idle) = 0
  /\ trace w = [EvOut 0x5a 15]
  /\ reg_get (regs w) (slot_off 15) = 0
  /\ fst (mbox_host_ioctl sample_atn (sample_atn + 1) 0x5a w_idle) = - EINVAL.
Proof. vm_compute. intuition. Qed.

(** * lpc-ctrl: what the operations do *)

Lemma low16_is_mod x : Z.land x 0xffff = x mod 65536.
Proof. exact (Z.land_ones x 16 ltac:(lia)). Qed.

Lemma lpc_map_rejected_low_bits m :
  lpc_map_rejected m = true
  <-> hostaddr m mod 65536 <> 0 \/ map_size m mod 65536 <> 0.
Proof.
  unfold lpc_map_rejected. rewrite !low16_is_mod.
  assert (N : forall x, (Z.lor x (u32 (Z.lnot 65535)) =? 0) = false).
  { intros x. apply Z.eqb_neq. intros E. apply Z.lor_eq_0_iff in E as [_ E].
    discriminate E. }
  rewrite !N. cbn [orb].
  destruct (Z.eqb_spec (hostaddr m mod 65536) 0) as [H|H];
    destruct (Z.eqb_spec (map_size m mod 65536) 0) as [S|S]; cbn;
    split; intros; try discriminate; try reflexivity; tauto.
Qed.

(** X11: what MAP accepts.  The argument of MAP is refused with -EINVAL
    exactly when the host address or the size has one of its low 16 bits
    set; the two tests written as [(x | ~0xffff) == 0] never fire, so a
    host address of zero and a size of zero are accepted.  A refused MAP
    leaves the registers and everything else as they were. *)
Theorem lpc_map_accepts_64k_aligned :
  forall w p m,
    user_maps w !! p = Some m ->
    (fst (lpc_ctrl_ioctl LPC_CTRL_IOCTL_MAP p w) = - EINVAL
     <-> hostaddr m mod 65536 <> 0 \/ map_size m mod 65536 <> 0)
    /\ (fst (lpc_ctrl_ioctl LPC_CTRL_IOCTL_MAP p w) = 0
        <-> hostaddr m mod 65536 = 0 /\ map_size m mod 65536 = 0)
    /\ (fst (lpc_ctrl_ioctl LPC_CTRL_IOCTL_MAP p w) <> 0 ->
        snd (lpc_ctrl_ioctl LPC_CTRL_IOCTL_MAP p w) = w)
    /\ (hostaddr m = 0 -> map_size m = 0 ->
        fst (lpc_ctrl_ioctl LPC_CTRL_IOCTL_MAP p w) = 0).
Proof.
  intros w p m Hm. cbn [lpc_ctrl_ioctl]. rewrite Hm.
  pose proof (lpc_map_rejected_low_bits m) as R.
  destruct (lpc_map_rejected m); cbn [fst snd].
  - assert (D : hostaddr m mod 65536 <> 0 \/ map_size m mod 65536 <> 0) by now apply R.
    split; [tauto|]. split; [|split].
    + split; [discriminate | tauto].
    + reflexivity.
    + intros H0 S0. rewrite H0, S0 in D. cbn in D. tauto.
  - assert (D : ~ (hostaddr m mod 65536 <> 0 \/ map_size m mod 65536 <> 0)).
    { intros D. apply R in D. discriminate. }
    split; [|split; [|split]].
    + split; [discriminate | tauto].
    + split; [|reflexivity]. intros _.
      destruct (Z.eq_dec (hostaddr m mod 65536) 0), (Z.eq_dec (map_size m mod 65536) 0); tauto.
    + intros H. now elim H.
    + reflexivity.
Qed.

Lemma lor_high_low a b :
  0 <= b < 65536 -> Z.lor (a * 65536) b = a * 65536 + b.
Proof.
  intros Hb.
  assert (L : Z.land (a * 65536) b = 0).
  { apply Z.bits_inj'. intros n Hn. rewrite Z.land_spec, Z.bits_0.
    destruct (Z.lt_ge_cases n 16) as [Hlt|Hge].
    - change 65536 with (2 ^ 16). now rewrite Z.mul_pow2_bits_low.
    - rewrite <- (Z.mod_small b (2 ^ 16)) by (change (2 ^ 16) with 65536; lia).
      rewrite Z.mod_pow2_bits_high by lia. apply andb_false_r. }
  now rewrite <- (Z.lxor_lor _ _ L), <- (Z.add_nocarry_lxor _ _ L).
Qed.

Lemma hicr7_aligned base m :
  0 <= base < 2 ^ 32 -> base mod 65536 = 0 ->
  0 <= hostaddr m < 2 ^ 32 ->
  u32 (hicr7_of base m) = base + hostaddr m / 65536.
Proof.
  intros Hb Ha Hh. unfold hicr7_of, u32, wrap.
  rewrite Z.shiftr_div_pow2 by lia. change (2 ^ 16) with 65536.
  assert (Hq : 0 <= hostaddr m / 65536 < 65536).
  { split; [apply Z.div_pos; lia | apply Z.div_lt_upper_bound; lia]. }
  rewrite (Z.div_mod base 65536) at 1 by lia. rewrite Ha, Z.add_0_r, Z.mul_comm.
  rewrite lor_high_low by exact Hq.
  rewrite Z.mod_small.
  - rewrite (Z.div_mod base 65536) at 2 by lia. lia.
  - pose proof (Z.div_mod base 65536 ltac:(lia)).
    assert (base / 65536 < 65536) by (apply Z.div_lt_upper_bound; lia).
    assert (0 <= base / 65536) by (apply Z.div_pos; lia). lia.
Qed.

Lemma hicr8_aligned m k :
  map_size m = k * 65536 -> 1 <= k < 65536 ->
  u32 (hicr8_of m) = (65536 - k) * 65536 + (k - 1).
Proof.
  intros Hs Hk. unfold hicr8_of, u32, wrap. rewrite Hs.
  rewrite Z.shiftr_div_pow2 by lia. change (2 ^ 16) with 65536.
  rewrite Z.div_mul by lia.
  rewrite (Z.mod_small (k * 65536 - 1)) by lia.
  replace (Z.lnot (k * 65536 - 1)) with (- (k * 65536)) by (unfold Z.lnot; lia).
  assert (E : (- (k * 65536)) mod 2 ^ 32 = (65536 - k) * 65536).
  { symmetry. apply (Z.mod_unique _ _ (-1)); lia. }
  rewrite E, (Z.mod_small (k - 1)) by lia.
  rewrite lor_high_low by lia. apply Z.mod_small. lia.
Qed.

Lemma lpc_map_ok w p m :
  user_maps w !! p = Some m -> lpc_map_rejected m = false ->
  lpc_ctrl_ioctl LPC_CTRL_IOCTL_MAP p w
  = (0, iowrite32 (hicr8_of m) LPC_HICR8 (iowrite32 (hicr7_of (lpc_base w) m) LPC_HICR7 w)).
Proof. intros Hm Hr. cbn [lpc_ctrl_ioctl]. now rewrite Hm, Hr. Qed.

(** X12: what MAP programs.  For a window whose host address is 64 KiB
    aligned and whose size is k times 64 KiB (1 <= k < 65536), on a device
    whose region base is 64 KiB aligned, MAP returns 0 and leaves in HICR7
    the base plus the upper half of the host address (base in the upper 16
    bits, host address >> 16 in the lower 16), and in HICR8 the value
    (65536 - k) * 65536 + (k - 1): the address mask in the upper 16 bits and
    the size in 64 KiB units minus one in the lower 16. *)
Theorem lpc_map_register_values :
  forall w p m k,
    user_maps w !! p = Some m ->
    0 <= lpc_base w < 2 ^ 32 -> lpc_base w mod 65536 = 0 ->
    0 <= hostaddr m < 2 ^ 32 -> hostaddr m mod 65536 = 0 ->
    map_size m = k * 65536 -> 1 <= k < 65536 ->
    fst (lpc_ctrl_ioctl LPC_CTRL_IOCTL_MAP p w) = 0
    /\ lpc_regs (snd (lpc_ctrl_ioctl LPC_CTRL_IOCTL_MAP p w)) !! LPC_HICR7
       = Some (lpc_base w + hostaddr m / 65536)
    /\ lpc_regs (snd (lpc_ctrl_ioctl LPC_CTRL_IOCTL_MAP p w)) !! LPC_HICR8
       = Some ((65536 - k) * 65536 + (k - 1))
    /\ lpc_trace (snd (lpc_ctrl_ioctl LPC_CTRL_IOCTL_MAP p w))
       = lpc_trace w ++ [LpcOut32 (lpc_base w + hostaddr m / 65536) LPC_HICR7;
                         LpcOut32 ((65536 - k) * 65536 + (k - 1)) LPC_HICR8].
Proof.
  intros w p m k Hm Hb Ha Hh Hal Hs Hk.
  assert (Hr : lpc_map_rejected m = false).
  { destruct (lpc_map_rejected m) eqn:E; [|reflexivity].
    apply lpc_map_rejected_low_bits in E. exfalso. destruct E as [E|E]; apply E.
    - exact Hal.
    - rewrite Hs. apply Z.mod_mul. lia. }
  rewrite (lpc_map_ok w p m Hm Hr). unfold iowrite32, lpc_log. cbn.
  rewrite (hicr7_aligned _ _ Hb Ha Hh), (hicr8_aligned _ _ Hs Hk).
  repeat split.
  - rewrite lookup_insert_ne by discriminate. apply lookup_insert_eq.
  - apply lookup_insert_eq.
  - now rewrite <- app_assoc.
Qed.

(** X13: UNMAP is MAP of the flash window.  On a device whose region base is
    0x30000000, UNMAP does exactly what MAP does for host address
    0x0e000000 and size 32 MiB: same return value, same two register
    writes, same registers afterwards (HICR7 = 0x30000e00,
    HICR8 = 0xfe0001ff). *)
Theorem lpc_unmap_is_map_of_default_window :
  forall w p q,
    lpc_base w = 0x30000000 ->
    user_maps w !! p = Some default_window ->
    lpc_ctrl_ioctl LPC_CTRL_IOCTL_UNMAP q w = lpc_ctrl_ioctl LPC_CTRL_IOCTL_MAP p w
    /\ lpc_regs (snd (lpc_ctrl_ioctl LPC_CTRL_IOCTL_UNMAP q w)) !! LPC_HICR7
       = Some 0x30000e00
    /\ lpc_regs (snd (lpc_ctrl_ioctl LPC_CTRL_IOCTL_UNMAP q w)) !! LPC_HICR8
       = Some 0xfe0001ff.
Proof.
  intros w p q Hb Hm.
  rewrite (lpc_map_ok w p default_window Hm eq_refl), Hb.
  cbn [lpc_ctrl_ioctl]. unfold iowrite32, lpc_log. cbn [lpc_regs lpc_base lpc_size
    user_maps user_sizes lpc_addr_limit lpc_trace fst snd].
  change (u32 (Z.lor (Z.shiftl 12288 16) 3584)) with 0x30000e00.
  change (u32 (Z.lor (Z.shiftl (Z.lnot (512 - 1)) 16) (512 - 1))) with 0xfe0001ff.
  change (u32 (hicr7_of 805306368 default_window)) with 0x30000e00.
  change (u32 (hicr8_of default_window)) with 0xfe0001ff.
  repeat split.
  - rewrite lookup_insert_ne by discriminate. apply lookup_insert_eq.
  - apply lookup_insert_eq.
Qed.

(** X14: the footprint of ioctl.  Whatever the operation and its argument,
    ioctl returns 0, -EFAULT or -EINVAL; when it does not return 0 nothing
    has changed; it never changes the recorded base and size of the region,
    writes no register other than HICR7 and HICR8, and when it writes it
    writes HICR7 first and HICR8 second. *)
Theorem lpc_ioctl_footprint :
  forall cmd p w,
    let r := lpc_ctrl_ioctl cmd p w in
    (fst r = 0 \/ fst r = - EFAULT \/ fst r = - EINVAL)
    /\ (fst r <> 0 -> snd r = w)
    /\ lpc_base (snd r) = lpc_base w
    /\ lpc_size (snd r) = lpc_size w
    /\ (forall off, off <> LPC_HICR7 -> off <> LPC_HICR8 ->
          lpc_regs (snd r) !! off = lpc_regs w !! off)
    /\ (lpc_trace (snd r) = lpc_trace w
        \/ exists v7 v8,
             lpc_trace (snd r)
             = lpc_trace w ++ [LpcOut32 v7 LPC_HICR7; LpcOut32 v8 LPC_HICR8]).
Proof.
  intros cmd p w r. subst r.
  assert (Two : forall v7 v8,
            let w2 := iowrite32 v8 LPC_HICR8 (iowrite32 v7 LPC_HICR7 w) in
            lpc_base w2 = lpc_base w /\ lpc_size w2 = lpc_size w
            /\ (forall off, off <> LPC_HICR7 -> off <> LPC_HICR8 ->
                  lpc_regs w2 !! off = lpc_regs w !! off)
            /\ lpc_trace w2
               = lpc_trace w ++ [LpcOut32 (u32 v7) LPC_HICR7; LpcOut32 (u32 v8) LPC_HICR8]).
  { intros v7 v8. unfold iowrite32, lpc_log. cbn. repeat split.
    - intros off H7 H8. now rewrite !lookup_insert_ne by congruence.
    - now rewrite <- app_assoc. }
  destruct cmd; cbn [lpc_ctrl_ioctl].
  - destruct (user_sizes w !! p); cbn [fst snd lpc_base lpc_size lpc_regs lpc_trace];
      repeat split; auto; intros; congruence.
  - destruct (user_maps w !! p) as [m|]; [destruct (lpc_map_rejected m)|];
      cbn [fst snd]; try (repeat split; auto; intros; congruence).
    destruct (Two (hicr7_of (lpc_base w) m) (hicr8_of m)) as (B & S & R & T).
    repeat split; auto; try congruence. right; eauto.
  - cbn [fst snd].
    destruct (Two (Z.lor (Z.shiftl 12288 16) 3584)
                  (Z.lor (Z.shiftl (Z.lnot (512 - 1)) 16) (512 - 1))) as (B & S & R & T).
    repeat split; auto; try congruence. right; eauto.
  - cbn [fst snd]. repeat split; auto; intros; congruence.
Qed.

Lemma lpc_probe_ok a pf w s e :
  lpc_has_of_node pf = true -> lpc_kzalloc_ok pf = true ->
  lpc_has_mem_resource pf = true -> lpc_ioremap_ok pf = true ->
  lpc_region pf = Region s e -> lpc_misc_register_rc pf = 0 ->
  lpc_ctrl_probe a pf w
  = (0, mkLpc (lpc_regs w) s (resource_size a s e) (user_maps w) (user_sizes w)
              (lpc_addr_limit w) (lpc_trace w)).
Proof.
  intros H1 H2 H3 H4 H5 H6. unfold lpc_ctrl_probe.
  now rewrite H1, H2, H3, H4, H5, H6.
Qed.

Lemma lpc_probe_inv a pf w :
  fst (lpc_ctrl_probe a pf w) = 0 ->
  exists s e,
    lpc_has_of_node pf = true /\ lpc_kzalloc_ok pf = true
    /\ lpc_has_mem_resource pf = true /\ lpc_ioremap_ok pf = true
    /\ lpc_region pf = Region s e /\ lpc_misc_register_rc pf = 0.
Proof.
  unfold lpc_ctrl_probe.
  destruct (lpc_has_of_node pf); [|discriminate].
  destruct (lpc_kzalloc_ok pf); [|discriminate].
  destruct (lpc_has_mem_resource pf); [|discriminate].
  destruct (lpc_ioremap_ok pf); [|discriminate]. cbn [negb].
  destruct (lpc_region pf) as [| |s e]; [discriminate..|].
  destruct (Z.eqb_spec (lpc_misc_register_rc pf) 0) as [E|E]; cbn [negb fst].
  - intros _. exists s, e. repeat split; reflexivity || exact E.
  - intros E'. contradiction.
Qed.

(** X15: attach of lpc-ctrl on a platform whose registers are mapped.
    Probe returns 0 exactly when the device node, the allocation, the
    register resource, the reserved memory region and the registration all
    succeed; it then records the start of the region as base and
    end - start + 1 as size.  A probe that fails returns the error of the
    first failing step (-EINVAL when the "memory-region" phandle is missing,
    -ENOMEM when it cannot be resolved) and changes nothing. *)
Theorem lpc_probe_result_by_platform :
  forall a pf w,
    lpc_ioremap_ok pf = true ->
    (fst (lpc_ctrl_probe a pf w) = 0 <->
     lpc_has_of_node pf = true /\ lpc_kzalloc_ok pf = true
     /\ lpc_has_mem_resource pf = true
     /\ (exists s e, lpc_region pf = Region s e) /\ lpc_misc_register_rc pf = 0)
    /\ (fst (lpc_ctrl_probe a pf w) <> 0 -> snd (lpc_ctrl_probe a pf w) = w)
    /\ (forall s e,
          fst (lpc_ctrl_probe a pf w) = 0 -> lpc_region pf = Region s e ->
          lpc_base (snd (lpc_ctrl_probe a pf w)) = s
          /\ lpc_size (snd (lpc_ctrl_probe a pf w)) = wrap (phys_bits a) (e - s + 1)
          /\ lpc_regs (snd (lpc_ctrl_probe a pf w)) = lpc_regs w)
    /\ (lpc_has_of_node pf = true -> lpc_kzalloc_ok pf = true ->
        lpc_has_mem_resource pf = true ->
        (lpc_region pf = NoRegion -> fst (lpc_ctrl_probe a pf w) = - EINVAL)
        /\ (lpc_region pf = UnresolvedRegion -> fst (lpc_ctrl_probe a pf w) = - ENOMEM)).
Proof.
  intros a pf w Hmap. split; [|split; [|split]].
  - split.
    + intros H. destruct (lpc_probe_inv a pf w H) as (s & e & ? & ? & ? & ? & ? & ?).
      repeat split; eauto.
    + intros (H1 & H2 & H3 & (s & e & H5) & H6).
      now rewrite (lpc_probe_ok a pf w s e).
  - unfold lpc_ctrl_probe.
    destruct (lpc_has_of_node pf), (lpc_kzalloc_ok pf), (lpc_has_mem_resource pf),
      (lpc_ioremap_ok pf); cbn [negb fst snd]; try reflexivity.
    destruct (lpc_region pf); try reflexivity.
    destruct (lpc_misc_register_rc pf =? 0); cbn [negb fst snd]; [|reflexivity].
    intros H. now elim H.
  - intros s e H Hr.
    destruct (lpc_probe_inv a pf w H) as (s' & e' & H1 & H2 & H3 & H4 & H5 & H6).
    rewrite (lpc_probe_ok a pf w s' e' H1 H2 H3 H4 H5 H6). cbn.
    rewrite Hr in H5. inversion H5; subst. auto.
  - intros H1 H2 H3. unfold lpc_ctrl_probe. rewrite H1, H2, H3, Hmap. cbn [negb].
    split; intros ->; reflexivity.
Qed.

(** X16: the SIZE operation after attach.  On a device attached on a region
    from start to end (within the range of resource_size_t), SIZE stores
    end - start + 1 in the object the user passed and returns 0; when the
    object cannot be written it returns -EFAULT and changes nothing. *)
Theorem lpc_size_reports_region_size :
  forall a pf w s e p,
    fst (lpc_ctrl_probe a pf w) = 0 ->
    lpc_region pf = Region s e ->
    s <= e -> e - s + 1 < 2 ^ phys_bits a ->
    let w' := snd (lpc_ctrl_probe a pf w) in
    (is_Some (user_sizes w !! p) ->
     fst (lpc_ctrl_ioctl LPC_CTRL_IOCTL_SIZE p w') = 0
     /\ user_sizes (snd (lpc_ctrl_ioctl LPC_CTRL_IOCTL_SIZE p w')) !! p
        = Some (e - s + 1))
    /\ (user_sizes w !! p = None ->
        lpc_ctrl_ioctl LPC_CTRL_IOCTL_SIZE p w' = (- EFAULT, w')).
Proof.
  intros a pf w s e p H Hr Hse Hlt w'.
  destruct (lpc_probe_inv a pf w H) as (s' & e' & H1 & H2 & H3 & H4 & H5 & H6).
  assert (E : w' = mkLpc (lpc_regs w) s (e - s + 1) (user_maps w) (user_sizes w)
                         (lpc_addr_limit w) (lpc_trace w)).
  { subst w'. rewrite (lpc_probe_ok a pf w s' e' H1 H2 H3 H4 H5 H6).
    rewrite Hr in H5. inversion H5; subst. cbn [snd].
    unfold resource_size, wrap. now rewrite Z.mod_small by lia. }
  rewrite E. cbn [lpc_ctrl_ioctl user_sizes lpc_size]. split.
  - intros [x Hx]. rewrite Hx. cbn [fst snd user_sizes]. split; [reflexivity|].
    apply lookup_insert_eq.
  - intros Hn. now rewrite Hn.
Qed.

(** X17: what mmap accepts after attach.  On a device attached on a region
    from start to end, for an area and a page offset that do not overflow
    unsigned long, mmap refuses with -EINVAL exactly when the page offset
    plus the length of the area exceeds end + 1, the first address after
    the region, and then does not call remap_pfn_range.  Otherwise it calls
    remap_pfn_range once, for the length of the area, starting at the page
    frame (start >> PAGE_SHIFT) + page offset, and returns 0, or -EAGAIN
    when that call fails. *)
Theorem lpc_mmap_bound_after_probe :
  forall a pf w s e vma,
    fst (lpc_ctrl_probe a pf w) = 0 ->
    lpc_region pf = Region s e ->
    0 <= s <= e -> e + 1 < 2 ^ phys_bits a ->
    vm_start vma <= vm_end vma -> 0 <= vm_pgoff vma ->
    vm_pgoff vma + (vm_end vma - vm_start vma) < 2 ^ long_bits a ->
    let w' := snd (lpc_ctrl_probe a pf w) in
    let len := vm_end vma - vm_start vma in
    (fst (lpc_ctrl_mmap a vma w') = - EINVAL <-> vm_pgoff vma + len > e + 1)
    /\ (vm_pgoff vma + len > e + 1 -> snd (lpc_ctrl_mmap a vma w') = w')
    /\ (vm_pgoff vma + len <= e + 1 ->
        fst (lpc_ctrl_mmap a vma w') = (if remap_ok vma then 0 else - EAGAIN)
        /\ lpc_trace (snd (lpc_ctrl_mmap a vma w'))
           = lpc_trace w
             ++ [LpcRemap (vm_start vma)
                          (wrap (long_bits a) (Z.shiftr s (PAGE_SHIFT a) + vm_pgoff vma))
                          len]).
Proof.
  intros a pf w s e vma H Hr Hse Hlt Hvm Hpg Hnw w' len.
  destruct (lpc_probe_inv a pf w H) as (s' & e' & H1 & H2 & H3 & H4 & H5 & H6).
  assert (E : w' = mkLpc (lpc_regs w) s (e - s + 1) (user_maps w) (user_sizes w)
                         (lpc_addr_limit w) (lpc_trace w)).
  { subst w'. rewrite (lpc_probe_ok a pf w s' e' H1 H2 H3 H4 H5 H6).
    rewrite Hr in H5. inversion H5; subst. cbn [snd].
    unfold resource_size, wrap. now rewrite Z.mod_small by lia. }
  assert (V : wrap (long_bits a) (vm_end vma - vm_start vma) = len).
  { unfold wrap. apply Z.mod_small. subst len. lia. }
  assert (L : wrap (long_bits a) (vm_pgoff vma + len) = vm_pgoff vma + len).
  { unfold wrap. apply Z.mod_small. subst len. lia. }
  assert (P : wrap (phys_bits a) (s + (e - s + 1)) = e + 1).
  { unfold wrap. replace (s + (e - s + 1)) with (e + 1) by lia.
    apply Z.mod_small. lia. }
  rewrite E. unfold lpc_ctrl_mmap. cbn [lpc_base lpc_size]. rewrite V, L, P.
  destruct (Z.gtb_spec (vm_pgoff vma + len) (e + 1)) as [G|G]; cbn [fst snd].
  - split; [split; [lia | reflexivity]|]. split; [reflexivity | lia].
  - split; [|split; [lia|]].
    + split; [|lia]. destruct (remap_ok vma); cbn; unfold EINVAL, EAGAIN; lia.
    + intros _. destruct (remap_ok vma); cbn; auto.
Qed.

(** ** The further statements at concrete inputs *)

Lemma probe_result_by_platform_witness :
  fst (mbox_host_probe jiffies_at_100hz sample_bits pf_noirq w_idle) = 0.
Proof.
  apply (proj1 (probe_result_by_platform sample_atn jiffies_at_100hz sample_bits
                  pf_noirq w_idle eq_refl)).
  repeat split; reflexivity.
Defined.

Lemma config_irq_by_case_witness :
  recv_ready w_ready = true
  /\ recv_ready (snd (mbox_host_config_irq pf_irq w_ready)) = false.
Proof.
  split; [reflexivity|].
  apply (proj2 (proj2 (config_irq_by_case sample_atn jiffies_at_100hz
                         pf_irq w_ready))).
  - discriminate.
  - reflexivity.
Defined.

Lemma attach_and_a_pending_message_witness :
  regs (snd (mbox_host_probe jiffies_at_100hz sample_bits pf_noirq w_ready))
  = regs w_ready.
Proof.
  apply (proj1 (attach_and_a_pending_message jiffies_at_100hz sample_bits
                  pf_noirq w_ready eq_refl eq_refl)).
  left. reflexivity.
Defined.

Lemma read_never_returns_without_delivery_witness :
  fst (env_step jiffies_at_100hz sample_bits EnvTimer
         (snd (mbox_host_probe jiffies_at_100hz sample_bits pf_noirq w_idle))) = true
  /\ fst (env_step jiffies_at_100hz sample_bits EnvTimer
            (snd (env_step jiffies_at_100hz sample_bits EnvTimer
                    (snd (mbox_host_probe jiffies_at_100hz sample_bits pf_noirq w_idle))))) = true
  /\ fst (mbox_host_read jiffies_at_100hz sample_bits 200 14
            [EnvTimer; EnvIrq; EnvTimer; EnvTimer]
            (snd (mbox_host_probe jiffies_at_100hz sample_bits pf_noirq w_idle))) = Blocked.
Proof.
  split; [reflexivity|]. split; [reflexivity|].
  apply (read_never_returns_without_delivery jiffies_at_100hz sample_bits
           200 14 [EnvTimer; EnvIrq; EnvTimer; EnvTimer]
           (snd (mbox_host_probe jiffies_at_100hz sample_bits pf_noirq w_idle))
           eq_refl eq_refl);
    reflexivity.
Defined.

Lemma read_returns_after_delivery_and_wake_witness :
  fst (mbox_host_read jiffies_at_100hz sample_bits 200 14
         ([EnvIrq] ++ EnvPeerAssert :: [EnvTimer; EnvIrq]) w_bound)
  = Ret (Z.of_nat MBOX_NUM_DATA_REGS).
Proof.
  apply (read_returns_after_delivery_and_wake jiffies_at_100hz sample_bits
           200 14 [EnvIrq] [EnvTimer; EnvIrq] w_bound).
  - reflexivity.
  - exact sample_dst_ok.
  - split; reflexivity.
  - reflexivity.
  - reflexivity.
  - right. left. reflexivity.
Defined.

Lemma read_consumes_the_message_witness :
  recv_ready (snd (mbox_host_read jiffies_at_100hz sample_bits 200 14 [] w_ready))
  = false.
Proof.
  apply (read_consumes_the_message jiffies_at_100hz sample_bits 200 14 [] w_ready 14).
  - reflexivity.
  - lia.
Defined.

Lemma poll_in_then_read_returns_frame_witness :
  fst (mbox_host_read jiffies_at_100hz sample_bits 200 14 [EnvSignal]
         (snd (mbox_host_poll w_ready)))
  = Ret (Z.of_nat MBOX_NUM_DATA_REGS).
Proof.
  apply (poll_in_then_read_returns_frame jiffies_at_100hz sample_bits
           200 14 [EnvSignal] w_ready).
  - discriminate.
  - reflexivity.
  - exact sample_dst_ok.
Defined.

Lemma irq_touches_control_register_only_witness :
  reg_get (regs (snd (mbox_host_irq w_ready))) MBOX_STATUS_0
  = reg_get (regs w_ready) MBOX_STATUS_0.
Proof.
  apply (proj1 (irq_touches_control_register_only w_ready)). discriminate.
Defined.

Lemma write_keeps_recv_and_other_registers_witness :
  reg_get (regs (snd (mbox_host_write 100 14 w_ready))) MBOX_STATUS_0
  = reg_get (regs w_ready) MBOX_STATUS_0.
Proof.
  apply (proj1 (proj2 (write_keeps_recv_and_other_registers 100 14 w_ready))).
  - discriminate.
  - intros j Hj. rewrite slot_off_4. unfold MBOX_STATUS_0, MBOX_NUM_DATA_REGS in *. lia.
Defined.

Lemma remove_stops_the_timer_witness :
  timer_armed
    (snd (mbox_host_remove
            (run sample_atn jiffies_at_100hz sample_bits [OpPoll; OpEnv EnvTimer]
               (snd (mbox_host_probe jiffies_at_100hz sample_bits pf_noirq w_idle)))))
  = false.
Proof.
  apply (remove_stops_the_timer sample_atn jiffies_at_100hz sample_bits
           pf_noirq w_idle [OpPoll; OpEnv EnvTimer]).
  reflexivity.
Defined.

Lemma lpc_map_accepts_64k_aligned_witness :
  fst (lpc_ctrl_ioctl LPC_CTRL_IOCTL_MAP 64 lpc_idle) = 0.
Proof.
  apply (proj1 (proj2 (lpc_map_accepts_64k_aligned lpc_idle 64 default_window eq_refl))).
  split; reflexivity.
Defined.

Lemma lpc_map_register_values_witness :
  lpc_regs (snd (lpc_ctrl_ioctl LPC_CTRL_IOCTL_MAP 64 lpc_flash)) !! LPC_HICR8
  = Some ((65536 - 512) * 65536 + (512 - 1)).
Proof.
  apply (lpc_map_register_values lpc_flash 64 default_window 512).
  - reflexivity.
  - cbn. lia.
  - reflexivity.
  - cbn. lia.
  - reflexivity.
  - reflexivity.
  - lia.
Defined.

Lemma lpc_unmap_is_map_of_default_window_witness :
  lpc_ctrl_ioctl LPC_CTRL_IOCTL_UNMAP 0 lpc_flash
  = lpc_ctrl_ioctl LPC_CTRL_IOCTL_MAP 64 lpc_flash.
Proof.
  apply (lpc_unmap_is_map_of_default_window lpc_flash 64 0); reflexivity.
Defined.

Lemma lpc_ioctl_footprint_witness :
  snd (lpc_ctrl_ioctl (LPC_CTRL_IOCTL_OTHER 7) 0 lpc_flash) = lpc_flash.
Proof.
  apply (proj1 (proj2 (lpc_ioctl_footprint (LPC_CTRL_IOCTL_OTHER 7) 0 lpc_flash))).
  discriminate.
Defined.

Lemma lpc_probe_result_by_platform_witness :
  fst (lpc_ctrl_probe arm32 lpc_pf lpc_idle) = 0.
Proof.
  apply (proj1 (lpc_probe_result_by_platform arm32 lpc_pf lpc_idle eq_refl)).
  repeat split; try reflexivity.
  exists 0x98000000, 0x98ffffff. reflexivity.
Defined.

Lemma lpc_size_reports_region_size_witness :
  user_sizes (snd (lpc_ctrl_ioctl LPC_CTRL_IOCTL_SIZE 128
                     (snd (lpc_ctrl_probe arm32 lpc_pf lpc_idle)))) !! 128
  = Some (0x98ffffff - 0x98000000 + 1).
Proof.
  apply (lpc_size_reports_region_size arm32 lpc_pf lpc_idle
           0x98000000 0x98ffffff 128 eq_refl eq_refl).
  - lia.
  - cbn. lia.
  - exists 0. reflexivity.
Defined.

Lemma lpc_mmap_bound_after_probe_witness :
  fst (lpc_ctrl_mmap arm32 (mkVma 0x10000 0x20000 16 true)
         (snd (lpc_ctrl_probe arm32 lpc_pf lpc_idle))) = 0.
Proof.
  apply (lpc_mmap_bound_after_probe arm32 lpc_pf lpc_idle 0x98000000 0x98ffffff
           (mkVma 0x10000 0x20000 16 true) eq_refl eq_refl).
  - lia.
  - cbn. lia.
  - cbn. lia.
  - cbn. lia.
  - cbn. lia.
  - cbn. lia.
Defined.
